(** * Live trading dashboard: chart synchronisation and dashboard state

    A shallow embedding of [components/chart.tsx] (the candlestick chart's data
    effect) and of the dashboard component (state, log panel, push-channel
    handlers, derived header values), with the properties the specification
    states about them.

    Conventions.
    - A JavaScript [number] that carries a price or a quantity is an IEEE 754
      double: Rocq's primitive [float].
    - [new Date(s).getTime()] is an integral number of milliseconds or [NaN];
      it is an [option Z], [None] standing for [NaN].  On the whole range of
      time values (at most 8.64e15 in magnitude) the double [ts / 1000] is
      never rounded up to the next integer, so [Math.floor(ts / 1000)] is the
      floor division of [Z].
    - A value that may be [null] or [undefined] is an [option]. *)

From Stdlib Require Import List ZArith String Ascii Bool Lia Sorted Permutation Floats.
Import ListNotations.

Set Implicit Arguments.

(** ** Data model *)

Module MarketTick.
(** [interface MarketTick]; the chart reads [timestamp] and the four
    prices, the dashboard also [symbol] and [volume]. *)
Record t : Type := mk {
  symbol : string;
  timestamp : string;
  open : float;
  high : float;
  low : float;
  close : float;
  volume : option float
}.
End MarketTick.

Module CandlePoint.
(** The object literal built in the chart's [map] callback:
    [{ time, open, high, low, close }]. *)
Record t : Type := mk {
  time : Z;
  open : float;
  high : float;
  low : float;
  close : float
}.
End CandlePoint.

(** ** JavaScript built-ins used by the chart *)

Module Js.

Section MapOfEntries.
Variable V : Type.

(** A [Map] with number keys: the entries in insertion order. *)
Definition JsMap : Type := list (Z * V).

(** [Map.prototype.set]: an existing key keeps its position and takes the
    new value, a new key goes to the end. *)
Fixpoint map_set (k : Z) (v : V) (m : JsMap) : JsMap :=
  match m with
  | [] => [(k, v)]
  | (k', v') :: m' =>
      if Z.eqb k' k then (k, v) :: m' else (k', v') :: map_set k v m'
  end.

(** [Map.prototype.get]. *)
Fixpoint map_get (k : Z) (m : JsMap) : option V :=
  match m with
  | [] => None
  | (k', v') :: m' => if Z.eqb k' k then Some v' else map_get k m'
  end.

(** The entries set one after the other, as the [Map] constructor does. *)
Definition set_entries (entries : list (Z * V)) (m : JsMap) : JsMap :=
  fold_left (fun m e => map_set (fst e) (snd e) m) entries m.

(** [new Map(entries)]. *)
Definition map_of_entries (entries : list (Z * V)) : JsMap :=
  set_entries entries [].

(** [Map.prototype.values], as [Array.from] collects it. *)
Definition map_values (m : JsMap) : list V := List.map snd m.

Definition map_keys (m : JsMap) : list Z := List.map fst m.
End MapOfEntries.

Section ArraySort.
Variable A : Type.
Variable compareFn : A -> A -> Z.

(** [Array.prototype.sort(compareFn)] is a stable sort: an element goes
    before the first element it does not compare greater than. *)
Fixpoint sort_insert (x : A) (sorted : list A) : list A :=
  match sorted with
  | [] => [x]
  | y :: rest =>
      if (compareFn x y <=? 0)%Z then x :: sorted
      else y :: sort_insert x rest
  end.

Definition array_sort (l : list A) : list A :=
  fold_right sort_insert [] l.
End ArraySort.

Section ByKey.
Variable A : Type.
Variable key : A -> Z.

(** The comparator [(a, b) => key(a) - key(b)], and the strict order a
    sort with it aims at. *)
Definition byKey (a b : A) : Z := (key a - key b)%Z.
Definition before (a b : A) : Prop := (key a < key b)%Z.
End ByKey.

(** [array.filter(d => d !== null)] on an array of objects and nulls. *)
Fixpoint filter_non_null (A : Type) (l : list (option A)) : list A :=
  match l with
  | [] => []
  | None :: rest => filter_non_null rest
  | Some d :: rest => d :: filter_non_null rest
  end.

End Js.

(** ** The chart's data effect ([chart.tsx], the second [useEffect]) *)

Module Chart.
Import Js.

(** What the rendering surface is asked to do. *)
Inductive SurfaceCall : Type :=
| SetData (series : list CandlePoint.t)
| FitContent.

(** The two refs the effect reads: [true] when [.current] is not null. *)
Record Refs : Type := mkRefs {
  seriesRef : bool;
  chartRef : bool
}.

(** The refs once the first effect has created the chart. *)
Definition mounted : Refs := mkRefs true true.

(** The rendering surface as the effect can change it: the series it shows
    and how many times it was told to fit its visible range. *)
Record Surface : Type := mkSurface {
  shown : list CandlePoint.t;
  fits : nat
}.

Definition applyCall (s : Surface) (c : SurfaceCall) : Surface :=
  match c with
  | SetData series => mkSurface series (fits s)
  | FitContent => mkSurface (shown s) (S (fits s))
  end.

Definition compareTime (a b : CandlePoint.t) : Z :=
  (CandlePoint.time a - CandlePoint.time b)%Z.

Definition is_fit (c : SurfaceCall) : bool :=
  match c with FitContent => true | SetData _ => false end.

Section WithDate.
(** [s => new Date(s).getTime()], [None] for [NaN]. *)
Variable getTime : string -> option Z.

(** The [map] callback. *)
Definition toPoint (tick : MarketTick.t) : option CandlePoint.t :=
  match getTime (MarketTick.timestamp tick) with
  | None => None
  | Some ts =>
      Some (CandlePoint.mk (ts / 1000)
              (MarketTick.open tick) (MarketTick.high tick)
              (MarketTick.low tick) (MarketTick.close tick))
  end.

(** [const chartData = data.map(...).filter(d => d !== null)]. *)
Definition chartData (data : list MarketTick.t) : list CandlePoint.t :=
  filter_non_null (List.map toPoint data).

(** [Array.from(new Map(chartData.map(d => [d.time, d])).values())
      .sort((a, b) => a.time - b.time)]: the canonical series. *)
Definition uniqueData (data : list MarketTick.t) : list CandlePoint.t :=
  array_sort compareTime
    (map_values
       (map_of_entries
          (List.map (fun d => (CandlePoint.time d, d)) (chartData data)))).

(** The body of the effect: the calls it makes on the surface. *)
Definition syncEffect (refs : Refs) (data : list MarketTick.t)
  : list SurfaceCall :=
  if negb (seriesRef refs) || (List.length data =? 0)%nat then []
  else
    let chartData := chartData data in
    if (List.length chartData =? 0)%nat then []
    else
      let uniqueData := uniqueData data in
      if (List.length uniqueData =? 0)%nat then []
      else
        SetData uniqueData ::
          (if (List.length uniqueData <=? 20)%nat && chartRef refs
           then [FitContent] else []).

(** The surface after the effect has run. *)
Definition render (refs : Refs) (data : list MarketTick.t) (s : Surface)
  : Surface :=
  fold_left applyCall (syncEffect refs data) s.
End WithDate.

(** *** The first effect: creating the chart *)

(** The first [useEffect].  Without a container element it returns at once;
    otherwise it creates the chart and stores it in [chartRef], then adds
    the candlestick series and stores it in [seriesRef].  Its cleanup removes
    the resize listener and the chart and assigns neither ref. *)
Definition mountEffect (container : bool) (refs : Refs) : Refs :=
  if negb container then refs
  else
    let withChart := mkRefs (seriesRef refs) true in
    mkRefs true (chartRef withChart).

(** The refs after any number of runs of the first effect. *)
Inductive reachableRefs : Refs -> Prop :=
| refs_initial : reachableRefs (mkRefs false false)
| refs_effect (container : bool) (refs : Refs) :
    reachableRefs refs -> reachableRefs (mountEffect container refs).

(** The data effect run once per value of [data], in order. *)
Definition renderAll (getTime : string -> option Z) (refs : Refs)
    (buffers : list (list MarketTick.t)) (s : Surface) : Surface :=
  fold_left (fun s data => render getTime refs data s) buffers s.

End Chart.

(** ** The date-time string format of ECMA-262

    [Date.parse] is fixed by the language standard on strings of the date-time
    string format; here, its complete form with the UTC designator,
    [YYYY-MM-DDTHH:mm:ssZ] and [YYYY-MM-DDTHH:mm:ss.sssZ].  What an engine does
    with a string of another shape is its own business: [parseUtc] says
    nothing about it and gives [None]. *)

Module JsDate.

Definition bindOpt (A B : Type) (x : option A) (f : A -> option B) : option B :=
  match x with Some a => f a | None => None end.

Notation "x <- e ;; k" := (bindOpt e (fun x => k))
  (at level 61, e at next level, right associativity).
Notation "' pat <- e ;; k" := (bindOpt e (fun x => match x with pat => k end))
  (at level 61, pat pattern, e at next level, right associativity).

Definition digit (c : ascii) : option Z :=
  let n := nat_of_ascii c in
  if ((48 <=? n) && (n <=? 57))%nat then Some (Z.of_nat (n - 48)) else None.

(** Exactly [n] decimal digits, most significant first. *)
Fixpoint digits (n : nat) (acc : Z) (s : string) : option (Z * string) :=
  match n with
  | O => Some (acc, s)
  | S n' =>
      match s with
      | EmptyString => None
      | String c rest =>
          d <- digit c ;; digits n' (10 * acc + d)%Z rest
      end
  end.

Definition expect (c : ascii) (s : string) : option string :=
  match s with
  | String c' rest => if Ascii.eqb c c' then Some rest else None
  | EmptyString => None
  end.

Open Scope Z_scope.

(** Day number of the first day of year [y] (ECMA-262, DayFromYear). *)
Definition DayFromYear (y : Z) : Z :=
  365 * (y - 1970) + (y - 1969) / 4 - (y - 1901) / 100 + (y - 1601) / 400.

Definition InLeapYear (y : Z) : bool :=
  if negb (y mod 4 =? 0) then false
  else if negb (y mod 100 =? 0) then true
  else (y mod 400 =? 0).

Definition DaysInMonth (y m : Z) : Z :=
  if m =? 2 then (if InLeapYear y then 29 else 28)
  else if (m =? 4) || (m =? 6) || (m =? 9) || (m =? 11) then 30
  else 31.

(** Days of the year before month [m] (1 to 12). *)
Definition DaysBeforeMonth (y m : Z) : Z :=
  nth (Z.to_nat (m - 1))
      [0; 31; 59; 90; 120; 151; 181; 212; 243; 273; 304; 334] 0
  + (if InLeapYear y && (3 <=? m) then 1 else 0).

Definition MakeDay (y m d : Z) : Z :=
  DayFromYear y + DaysBeforeMonth y m + (d - 1).

Definition MakeTime (h mi s ms : Z) : Z :=
  h * 3600000 + mi * 60000 + s * 1000 + ms.

Definition MakeDate (day time : Z) : Z := day * 86400000 + time.

Definition validFields (y mo d h mi s ms : Z) : bool :=
  (1 <=? mo) && (mo <=? 12) && (1 <=? d) && (d <=? DaysInMonth y mo)
  && (mi <=? 59) && (s <=? 59)
  && ((h <=? 23) || ((h =? 24) && (mi =? 0) && (s =? 0) && (ms =? 0))).

(** The optional [.sss] and the closing [Z]. *)
Definition fractionAndZone (s : string) : option Z :=
  match s with
  | String "Z" EmptyString => Some 0
  | String "." rest =>
      match digits 3 0 rest with
      | Some (ms, String "Z" EmptyString) => Some ms
      | _ => None
      end
  | _ => None
  end.

Definition parseUtc (s : string) : option Z :=
  '(y, s) <- digits 4 0 s ;;
  s <- expect "-" s ;;
  '(mo, s) <- digits 2 0 s ;;
  s <- expect "-" s ;;
  '(d, s) <- digits 2 0 s ;;
  s <- expect "T" s ;;
  '(h, s) <- digits 2 0 s ;;
  s <- expect ":" s ;;
  '(mi, s) <- digits 2 0 s ;;
  s <- expect ":" s ;;
  '(sec, s) <- digits 2 0 s ;;
  ms <- fractionAndZone s ;;
  if validFields y mo d h mi sec ms
  then Some (MakeDate (MakeDay y mo d) (MakeTime h mi sec ms))
  else None.

(** An engine's [s => new Date(s).getTime()] follows the standard when it
    agrees with [parseUtc] wherever [parseUtc] is defined. *)
Definition conforms (getTime : string -> option Z) : Prop :=
  forall s ms, parseUtc s = Some ms -> getTime s = Some ms.

End JsDate.

Module AgentDecision.
(** [interface AgentDecision]; an optional or nullable field is an
    [option].  [positionSide] is whatever string the feed sent. *)
Record t : Type := mk {
  action : string;
  symbol : string;
  quantity : option float;
  price : option float;
  reason : string;
  balance : float;
  equity : float;
  realizedPnl : option float;
  roiPct : option float;
  positionSide : option string;
  positionSize : option float;
  positionOpenTime : option string;
  takeProfitPrice : option float;
  stopLossPrice : option float;
  positionNotional : option float;
  avgEntryPrice : option float
}.
End AgentDecision.

(** ** The dashboard component *)

Module Dashboard.

Open Scope string_scope.

(** A thrown value: an [Error] object with its [name] and [message]. *)
Record JsError : Type := mkError {
  name : string;
  message : string
}.

(** [String(error)], that is [Error.prototype.toString]. *)
Definition String_ (error : JsError) : string :=
  if String.eqb (message error) "" then name error
  else if String.eqb (name error) "" then message error
  else name error ++ ": " ++ message error.

(** [x ?? d]. *)
Definition nullish (A : Type) (x : option A) (d : A) : A :=
  match x with Some v => v | None => d end.

(** The component's state, one field per [useState]. *)
Record State : Type := mkState {
  isConnected : bool;
  currentTick : option MarketTick.t;
  agentDecision : option AgentDecision.t;
  logs : list string;
  chartData : list MarketTick.t
}.

(** [useState]'s initial values. *)
Definition initialState : State := mkState false None None [] [].

Definition setIsConnected (v : bool) (st : State) : State :=
  mkState v (currentTick st) (agentDecision st) (logs st) (chartData st).
Definition setCurrentTick (v : option MarketTick.t) (st : State) : State :=
  mkState (isConnected st) v (agentDecision st) (logs st) (chartData st).
Definition setAgentDecision (v : option AgentDecision.t) (st : State) : State :=
  mkState (isConnected st) (currentTick st) v (logs st) (chartData st).
(** The setters called with an updater function [prev => ...]. *)
Definition setLogs (f : list string -> list string) (st : State) : State :=
  mkState (isConnected st) (currentTick st) (agentDecision st)
    (f (logs st)) (chartData st).
Definition setChartData (f : list MarketTick.t -> list MarketTick.t)
    (st : State) : State :=
  mkState (isConnected st) (currentTick st) (agentDecision st)
    (logs st) (f (chartData st)).

(** *** Asynchronous handlers

    A handler is a tree of the effects it performs: it reads the clock, it
    applies a state setter, it awaits something (and is resumed later with
    the reply, other handlers running in between), it throws. *)

Record Response : Type := mkResponse { ok : bool }.

(** What [await fetch(...)] comes back with. *)
Inductive FetchOutcome : Type :=
| Resolved (res : Response)
| Rejected (error : JsError).

(** What [await res.json()] or [JSON.parse(body)] comes back with. *)
Inductive JsonOutcome (T : Type) : Type :=
| JsonValue (data : T)
| JsonError (error : JsError).
Arguments JsonError {T} error.

Inductive Async : Type -> Type :=
| HttpFetch (url method : string) : Async FetchOutcome
| ResJson (T : Type) : Async (JsonOutcome T).

Inductive Action (A : Type) : Type :=
| Done (a : A)
| Throw (error : JsError)
| LocaleTimeNow (k : string -> Action A)
| SetState (f : State -> State) (k : Action A)
| Await (X : Type) (e : Async X) (k : X -> Action A).
Arguments Throw {A} error.
Arguments LocaleTimeNow {A} k.
Arguments SetState {A} f k.

Fixpoint bind (A B : Type) (a : Action A) (f : A -> Action B) : Action B :=
  match a with
  | Done x => f x
  | Throw error => Throw error
  | LocaleTimeNow k => LocaleTimeNow (fun s => bind (k s) f)
  | SetState g k => SetState g (bind k f)
  | Await e k => Await e (fun x => bind (k x) f)
  end.

(** [try { body } catch (error) { handler }]. *)
Fixpoint tryCatch (A : Type) (body : Action A) (handler : JsError -> Action A)
  : Action A :=
  match body with
  | Done x => Done x
  | Throw error => handler error
  | LocaleTimeNow k => LocaleTimeNow (fun s => tryCatch (k s) handler)
  | SetState g k => SetState g (tryCatch k handler)
  | Await e k => Await e (fun x => tryCatch (k x) handler)
  end.

Notation "x <- a ;; b" := (bind a (fun x => b))
  (at level 61, a at next level, right associativity).
Notation "a ;; b" := (bind a (fun _ => b))
  (at level 61, right associativity).

Definition set (f : State -> State) : Action unit := SetState f (Done tt).

(** [await fetch(url, { method })]: a rejection is thrown. *)
Definition fetch (url method : string) : Action Response :=
  Await (HttpFetch url method)
    (fun o => match o with Resolved res => Done res | Rejected error => Throw error end).

(** [await res.json()]. *)
Definition json (T : Type) : Action T :=
  Await (ResJson T)
    (fun o => match o with JsonValue data => Done data | JsonError error => Throw error end).

(** The template literal [`[${timestamp}] ${msg}`]. *)
Definition logEntry (timestamp msg : string) : string :=
  "[" ++ timestamp ++ "] " ++ msg.

(** [addLog]: the entry is stamped with the clock read in the call, and
    goes in front of [prev.slice(0, 99)]. *)
Definition addLog (msg : string) : Action unit :=
  LocaleTimeNow (fun timestamp =>
    set (setLogs (fun prev => logEntry timestamp msg :: firstn 99 prev))).

Definition handleForceUpdate : Action unit :=
  tryCatch
    (addLog "Requesting force update..." ;;
     res <- fetch "http://localhost:8081/api/market/force-update" "POST" ;;
     (if negb (ok res) then Throw (mkError "Error" "Force update failed")
      else Done tt) ;;
     addLog "Force update requested successfully")
    (fun error =>
       addLog ("ERROR: Force update failed - " ++ substring 0 40 (String_ error))).

(** The market subscription's updater:
    [prev => [...prev.filter(d => d.timestamp !== tick.timestamp), tick]]. *)
Definition appendTick (tick : MarketTick.t) (prev : list MarketTick.t)
  : list MarketTick.t :=
  let deduplicated :=
    filter (fun d => negb (String.eqb (MarketTick.timestamp d)
                                      (MarketTick.timestamp tick))) prev in
  (deduplicated ++ [tick])%list.

(** The [/topic/market] callback, given [JSON.parse(message.body)]; a parse
    error is caught and only written to the console. *)
Definition onMarketMessage (parsed : JsonOutcome MarketTick.t) : Action unit :=
  match parsed with
  | JsonValue tick =>
      set (setCurrentTick (Some tick)) ;;
      set (setChartData (appendTick tick))
  | JsonError _ => Done tt
  end.

Definition onDisconnect : Action unit :=
  set (setIsConnected false) ;; addLog "WebSocket disconnected".

(** [onStompError], given [frame.headers["message"]]. *)
Definition onStompError (headerMessage : option string) : Action unit :=
  addLog ("ERROR: " ++
          match headerMessage with
          | Some m => if String.eqb m "" then "STOMP error" else m
          | None => "STOMP error"
          end).

Section WithNumberFormat.
(** [Number.prototype.toFixed]. *)
Variable toFixed : float -> nat -> string.
(** [s => new Date(s).toLocaleTimeString()]. *)
Variable toLocaleTimeString : string -> string.

Definition formatNumber (value : option float) (digits : nat)
    (empty : string) : string :=
  match value with None => empty | Some v => toFixed v digits end.

Definition fetchInitialMarketData : Action unit :=
  tryCatch
    (addLog "Fetching initial market data..." ;;
     res <- fetch "http://localhost:8081/api/market/current" "GET" ;;
     (if negb (ok res) then Throw (mkError "Error" "Failed to fetch market data")
      else Done tt) ;;
     data <- json MarketTick.t ;;
     set (setCurrentTick (Some data)) ;;
     set (setChartData (fun _ => [data])) ;;
     addLog ("Market: " ++ MarketTick.symbol data ++ " @ "
             ++ toFixed (MarketTick.close data) 2))
    (fun error =>
       addLog ("ERROR: Market data fetch failed - "
               ++ substring 0 40 (String_ error))).

Definition fetchLastAgentDecision : Action unit :=
  tryCatch
    (addLog "Fetching last agent decision..." ;;
     res <- fetch "http://localhost:8081/api/market/last-decision" "GET" ;;
     (if negb (ok res) then Throw (mkError "Error" "Failed to fetch decision")
      else Done tt) ;;
     data <- json AgentDecision.t ;;
     set (setAgentDecision (Some data)) ;;
     let balanceText := toFixed (AgentDecision.balance data) 2 in
     let equityText := toFixed (AgentDecision.equity data) 2 in
     let roiText :=
       match AgentDecision.roiPct data with
       | Some r => toFixed r 2
       | None => "0.00"
       end in
     addLog ("Agent: balance=$" ++ balanceText ++ " equity=$" ++ equityText
             ++ " roi=" ++ roiText ++ "%"))
    (fun error =>
       addLog ("ERROR: Agent decision fetch failed - "
               ++ substring 0 40 (String_ error))).

(** The [/topic/agent/decision] callback, given [JSON.parse(message.body)]. *)
Definition onDecisionMessage (parsed : JsonOutcome AgentDecision.t)
  : Action unit :=
  match parsed with
  | JsonValue decision =>
      set (setAgentDecision (Some decision)) ;;
      let qtyText := formatNumber (AgentDecision.quantity decision) 4 "---" in
      let priceText := formatNumber (AgentDecision.price decision) 2 "---" in
      let roiText := formatNumber (AgentDecision.roiPct decision) 2 "0.00" in
      addLog ("AGENT: " ++ AgentDecision.action decision ++ " qty=" ++ qtyText
              ++ " price=" ++ priceText ++ " roi=" ++ roiText
              ++ "% reason=" ++ AgentDecision.reason decision)
  | JsonError _ => Done tt
  end.
End WithNumberFormat.

(** [onConnect], the two subscriptions apart (they are the callbacks
    above). *)
Definition onConnect : Action unit :=
  set (setIsConnected true) ;; addLog "WebSocket connected".

(** *** Values derived from the state at each render *)

Definition priceChange (currentTick : option MarketTick.t) : float :=
  match currentTick with
  | Some t => (MarketTick.close t - MarketTick.open t)%float
  | None => 0%float
  end.

(** [currentTick && currentTick.open !== 0
      ? (priceChange / currentTick.open) * 100 : 0]. *)
Definition percentChange (currentTick : option MarketTick.t) : float :=
  match currentTick with
  | Some t =>
      if negb (PrimFloat.eqb (MarketTick.open t) 0%float)
      then (priceChange currentTick / MarketTick.open t * 100)%float
      else 0%float
  | None => 0%float
  end.

Definition isPositive (currentTick : option MarketTick.t) : bool :=
  (0 <=? priceChange currentTick)%float.

(** [agentDecision?.positionSide === "LONG"
      && (agentDecision.positionSize ?? 0) > 0]. *)
Definition hasOpenPosition (agentDecision : option AgentDecision.t) : bool :=
  match agentDecision with
  | None => false
  | Some d =>
      match AgentDecision.positionSide d with
      | Some side => String.eqb side "LONG"
      | None => false
      end
      && (0 <? nullish (AgentDecision.positionSize d) 0)%float
  end.

Definition symbolText (currentTick : option MarketTick.t) : string :=
  match currentTick with Some t => MarketTick.symbol t | None => "---" end.

(** The "Position" block of the side panel: its texts. *)
Inductive PositionBlock : Type :=
| OpenPosition (headline entry notional takeProfit stopLoss openedAt : string)
| NoOpenPosition (label : string).

Definition isOpenBlock (b : PositionBlock) : bool :=
  match b with OpenPosition _ _ _ _ _ _ => true | NoOpenPosition _ => false end.

Section Render.
Variable toFixed : float -> nat -> string.
Variable toLocaleTimeString : string -> string.

(** The line under the current price:
    [{Math.abs(priceChange).toFixed(2)} ({Math.abs(percentChange).toFixed(2)}%)]. *)
Definition percentText (currentTick : option MarketTick.t) : string :=
  toFixed (abs (percentChange currentTick)) 2.

Definition changeLine (currentTick : option MarketTick.t) : string :=
  toFixed (abs (priceChange currentTick)) 2
  ++ " (" ++ percentText currentTick ++ "%)".

Definition detail (f : AgentDecision.t -> option float)
    (agentDecision : option AgentDecision.t) : string :=
  formatNumber toFixed
    (match agentDecision with Some d => f d | None => None end) 2 "---".

Definition positionOpenText (agentDecision : option AgentDecision.t) : string :=
  match agentDecision with
  | Some d =>
      match AgentDecision.positionOpenTime d with
      | Some t => toLocaleTimeString t
      | None => "---"
      end
  | None => "---"
  end.

Definition positionBlock (agentDecision : option AgentDecision.t)
    (currentTick : option MarketTick.t) : PositionBlock :=
  if hasOpenPosition agentDecision then
    OpenPosition
      ("LONG "
       ++ toFixed
            (nullish
               (match agentDecision with
                | Some d => AgentDecision.positionSize d
                | None => None
                end) 0%float) 4
       ++ " " ++ symbolText currentTick)
      ("$" ++ detail AgentDecision.avgEntryPrice agentDecision)
      ("$" ++ detail AgentDecision.positionNotional agentDecision)
      ("$" ++ detail AgentDecision.takeProfitPrice agentDecision)
      ("$" ++ detail AgentDecision.stopLossPrice agentDecision)
      (positionOpenText agentDecision)
  else NoOpenPosition "No open position".
End Render.

(** *** Running handlers

    A handler runs until it ends, throws or awaits; the clock is read from
    [now], whose [n]-th value is what the [n]-th call of
    [new Date().toLocaleTimeString()] returns. *)

Inductive Outcome (A : Type) : Type :=
| Finished (a : A)
| Threw (error : JsError)
| Suspended (X : Type) (e : Async X) (k : X -> Action A).
Arguments Threw {A} error.

Record Ran (A : Type) : Type := mkRan {
  outcome : Outcome A;
  clockReads : nat;
  state : State
}.

Section Run.
Variable now : nat -> string.

Fixpoint run (A : Type) (a : Action A) (reads : nat) (st : State) : Ran A :=
  match a with
  | Done x => mkRan (Finished x) reads st
  | Throw error => mkRan (Threw error) reads st
  | LocaleTimeNow k => run (k (now reads)) (S reads) st
  | SetState f k => run k reads (f st)
  | Await e k => mkRan (Suspended e k) reads st
  end.

(** Handlers that never await, called one after the other. *)
Fixpoint runAll (l : list (Action unit)) (reads : nat) (st : State)
  : nat * State :=
  match l with
  | [] => (reads, st)
  | a :: rest =>
      let r := run a reads st in
      runAll rest (clockReads r) (state r)
  end.
End Run.

(** A handler run to its end when the reply to its request comes before
    anything else happens. *)
Definition runWithFetch (now : nat -> string) (a : Action unit)
    (reply : FetchOutcome) (reads : nat) (st : State) : Ran unit :=
  let r := run now a reads st in
  match outcome r with
  | Suspended e k =>
      match e in Async X return (X -> Action unit) -> Ran unit with
      | HttpFetch _ _ => fun k => run now (k reply) (clockReads r) (state r)
      | ResJson _ => fun _ => r
      end k
  | _ => r
  end.

(** [after] is [before] with [entry] put in front of its log, and nothing
    else changed. *)
Definition loggedOnce (entry : string) (before after : State) : Prop :=
  logs after = entry :: firstn 99 (logs before)
  /\ isConnected after = isConnected before
  /\ currentTick after = currentTick before
  /\ agentDecision after = agentDecision before
  /\ chartData after = chartData before.

(** The entries a run of [addLog] calls writes, the first call reading the
    clock for the [n]-th time. *)
Fixpoint stamped (now : nat -> string) (n : nat) (msgs : list string)
  : list string :=
  match msgs with
  | [] => []
  | msg :: rest => logEntry (now n) msg :: stamped now (S n) rest
  end.

(** *** The component as a transition system *)

(** A handler waiting for a reply. *)
Inductive Task : Type :=
| mkTask (X : Type) (e : Async X) (k : X -> Action unit).

Record Config : Type := mkConfig {
  view : State;
  reads : nat;
  pending : list Task
}.

Definition initialConfig : Config := mkConfig initialState 0 [].

Definition settle (r : Ran unit) (waiting : list Task) : Config :=
  match outcome r with
  | Suspended e k => mkConfig (state r) (clockReads r) (mkTask e k :: waiting)
  | _ => mkConfig (state r) (clockReads r) waiting
  end.

(** What can start a handler. *)
Inductive Event : Type :=
| Mounted_fetchInitialMarketData
| Mounted_fetchLastAgentDecision
| Clicked_forceUpdate
| Stomp_connect
| Stomp_disconnect
| Stomp_error (headerMessage : option string)
| Topic_market (parsed : JsonOutcome MarketTick.t)
| Topic_decision (parsed : JsonOutcome AgentDecision.t).

Section System.
Variable toFixed : float -> nat -> string.
Variable now : nat -> string.

Definition handler (ev : Event) : Action unit :=
  match ev with
  | Mounted_fetchInitialMarketData => fetchInitialMarketData toFixed
  | Mounted_fetchLastAgentDecision => fetchLastAgentDecision toFixed
  | Clicked_forceUpdate => handleForceUpdate
  | Stomp_connect => onConnect
  | Stomp_disconnect => onDisconnect
  | Stomp_error m => onStompError m
  | Topic_market parsed => onMarketMessage parsed
  | Topic_decision parsed => onDecisionMessage toFixed parsed
  end.

(** One turn of the event loop: an event starts its handler, or a reply
    resumes a waiting one. *)
Inductive step : Config -> Config -> Prop :=
| step_event (c : Config) (ev : Event) :
    step c (settle (run now (handler ev) (reads c) (view c)) (pending c))
| step_reply (c : Config) (before after : list Task)
      (X : Type) (e : Async X) (k : X -> Action unit) (reply : X) :
    pending c = (before ++ mkTask e k :: after)%list ->
    step c (settle (run now (k reply) (reads c) (view c)) (before ++ after)%list).

Inductive reachable : Config -> Prop :=
| reachable_initial : reachable initialConfig
| reachable_step (c c' : Config) : reachable c -> step c c' -> reachable c'.
End System.

(** Every setter an action applies keeps [P], whatever the replies. *)
Fixpoint preserves (P : State -> Prop) (A : Type) (a : Action A) : Prop :=
  match a with
  | Done _ => True
  | Throw _ => True
  | LocaleTimeNow k => forall s, preserves P (k s)
  | SetState f k => (forall st, P st -> P (f st)) /\ preserves P k
  | Await _ k => forall x, preserves P (k x)
  end.




(** The last tick of the buffer, if any. *)
Definition newestBuffered (buffer : list MarketTick.t) : option MarketTick.t :=
  last (List.map Some buffer) None.

(** [Q] holds of every continuation an action can be resumed with, at each
    of its awaits. *)
Fixpoint resumptions (A : Type) (Q : Action A -> Prop) (a : Action A) : Prop :=
  match a with
  | Done _ => True
  | Throw _ => True
  | LocaleTimeNow k => forall s, resumptions Q (k s)
  | SetState _ k => resumptions Q k
  | Await _ k => forall x, Q (k x) /\ resumptions Q (k x)
  end.

Definition taskResumes (Q : Action unit -> Prop) (t : Task) : Prop :=
  match t with mkTask _ k => forall x, Q (k x) /\ resumptions Q (k x) end.

(** An action run from a state where [P] holds stops in one where it holds. *)
Definition runKeeps (P : State -> Prop) (a : Action unit) : Prop :=
  forall (now : nat -> string) (n : nat) (st : State),
    P st -> P (state (run now a n st)).

(** An action run to its next stop changes nothing but the log. *)
Definition onlyLogs (a : Action unit) : Prop :=
  forall (now : nat -> string) (n : nat) (st : State),
    let st' := state (run now a n st) in
    isConnected st' = isConnected st
    /\ currentTick st' = currentTick st
    /\ agentDecision st' = agentDecision st
    /\ chartData st' = chartData st.

(** A waiting handler keeps [P] however it is resumed. *)
Definition taskPreserves (P : State -> Prop) (t : Task) : Prop :=
  match t with mkTask _ k => forall x, preserves P (k x) end.

(** The timestamps of the buffered ticks. *)
Definition timestamps (buffer : list MarketTick.t) : list string :=
  List.map MarketTick.timestamp buffer.

End Dashboard.

(** ** Sample inputs *)

Module Sample.

Open Scope string_scope.

Definition twoDigits (n : nat) : string :=
  String (ascii_of_nat (48 + n / 10))
    (String (ascii_of_nat (48 + n mod 10)) EmptyString).

(** A tick of the [n]-th second of 2024, [n] below 60. *)
Definition tickAt (n : nat) : MarketTick.t :=
  MarketTick.mk "BTCUSDT" ("2024-01-01T00:00:" ++ twoDigits n ++ "Z")
    100%float 110%float 90%float 105%float (Some 1%float).

(** A buffer of [n] ticks, one per second. *)
Definition buffer (n : nat) : list MarketTick.t := List.map tickAt (seq 0 n).

Definition tick (timestamp : string) (open close : float) : MarketTick.t :=
  MarketTick.mk "BTCUSDT" timestamp open 110%float 90%float close (Some 1%float).

Definition decision (side : option string) (size : option float)
  : AgentDecision.t :=
  AgentDecision.mk "HOLD" "BTCUSDT" None None "no signal"
    1000%float 1000%float None None side size
    (Some "2024-01-01T00:00:00Z") (Some 120%float) (Some 80%float)
    (Some 500%float) (Some 100%float).

(** Stand-ins for the host's formatting and clock. *)
Definition toFixed (x : float) (digits : nat) : string :=
  if PrimFloat.eqb x 0%float then "0.00" else "#.##".
Definition toLocaleTimeString (s : string) : string := s.
Definition now (n : nat) : string := "12:00:" ++ twoDigits n.

End Sample.

(** * Properties *)

(** ** Facts about the built-ins *)

Module JsFacts.
Import Js.

Section MapFacts.
Variable V : Type.
Implicit Types (m : JsMap V) (k : Z) (v : V).

Lemma map_get_set k k' v m :
  map_get k (map_set k' v m) = if Z.eqb k' k then Some v else map_get k m.
Proof.
  induction m as [|[k0 v0] m IH]; simpl.
  - reflexivity.
  - destruct (Z.eqb_spec k0 k') as [->|Hne]; simpl.
    + destruct (Z.eqb k' k); reflexivity.
    + rewrite IH. destruct (Z.eqb_spec k0 k) as [->|Hne'].
      * destruct (Z.eqb_spec k' k); [congruence | reflexivity].
      * reflexivity.
Qed.

Lemma in_keys_set k k' v m :
  In k (map_keys (map_set k' v m)) <-> k = k' \/ In k (map_keys m).
Proof.
  unfold map_keys.
  induction m as [|[k0 v0] m IH]; simpl.
  - intuition.
  - destruct (Z.eqb_spec k0 k') as [->|Hne]; simpl.
    + intuition.
    + rewrite IH. intuition.
Qed.

Lemma NoDup_keys_set k v m :
  NoDup (map_keys m) -> NoDup (map_keys (map_set k v m)).
Proof.
  induction m as [|[k0 v0] m IH]; simpl; intros Hnd.
  - constructor; [intros [] | constructor].
  - inversion Hnd as [|? ? Hnotin Hnd']; subst.
    destruct (Z.eqb_spec k0 k) as [->|Hne]; simpl.
    + constructor; assumption.
    + constructor.
      * intros Hin. apply in_keys_set in Hin. destruct Hin; [congruence | contradiction].
      * apply IH. assumption.
Qed.

Lemma in_set_inv k v k' v' m :
  In (k, v) (map_set k' v' m) -> (k = k' /\ v = v') \/ In (k, v) m.
Proof.
  induction m as [|[k0 v0] m IH]; simpl.
  - intros [H|[]]. inversion H. auto.
  - destruct (Z.eqb k0 k'); simpl.
    + intros [H|H]; [inversion H; auto | auto].
    + intros [H|H]; [auto | destruct (IH H); auto].
Qed.

Lemma map_get_in k v m : map_get k m = Some v -> In (k, v) m.
Proof.
  induction m as [|[k0 v0] m IH]; simpl; [discriminate|].
  destruct (Z.eqb_spec k0 k) as [->|Hne].
  - intros H. inversion H. auto.
  - auto.
Qed.

Lemma in_map_get k v m : NoDup (map_keys m) -> In (k, v) m -> map_get k m = Some v.
Proof.
  induction m as [|[k0 v0] m IH]; simpl; intros Hnd Hin; [contradiction|].
  inversion Hnd as [|? ? Hnotin Hnd']; subst.
  destruct Hin as [Heq|Hin].
  - inversion Heq; subst. rewrite Z.eqb_refl. reflexivity.
  - destruct (Z.eqb_spec k0 k) as [->|Hne].
    + exfalso. apply Hnotin. apply (in_map fst) in Hin. exact Hin.
    + auto.
Qed.

Lemma NoDup_keys_entries entries m :
  NoDup (map_keys m) -> NoDup (map_keys (set_entries entries m)).
Proof.
  revert m. induction entries as [|[k v] es IH]; simpl; intros m Hnd.
  - exact Hnd.
  - apply IH. apply NoDup_keys_set. exact Hnd.
Qed.

Lemma map_get_entries_other k entries m :
  ~ In k (List.map fst entries) ->
  map_get k (set_entries entries m) = map_get k m.
Proof.
  revert m. induction entries as [|[k' v'] es IH]; simpl; intros m Hnotin.
  - reflexivity.
  - unfold set_entries in *. simpl. rewrite IH by tauto.
    rewrite map_get_set. destruct (Z.eqb_spec k' k); [tauto | reflexivity].
Qed.

(** The last entry of a key is the one the map holds. *)
Lemma map_get_entries_last k v before after m :
  ~ In k (List.map fst after) ->
  map_get k (set_entries (before ++ (k, v) :: after) m) = Some v.
Proof.
  intros Hnotin. unfold set_entries. rewrite fold_left_app. simpl.
  fold (set_entries after (map_set k v (fold_left (fun m e => map_set (fst e) (snd e) m) before m))).
  rewrite map_get_entries_other by exact Hnotin.
  rewrite map_get_set, Z.eqb_refl. reflexivity.
Qed.

Lemma in_entries_inv k v entries m :
  In (k, v) (set_entries entries m) -> In (k, v) entries \/ In (k, v) m.
Proof.
  revert m. induction entries as [|[k' v'] es IH]; simpl; intros m Hin.
  - auto.
  - destruct (IH _ Hin) as [H|H]; [auto|].
    destruct (in_set_inv _ _ _ _ _ H) as [[-> ->]|H']; auto.
Qed.

Lemma in_keys_entries k entries m :
  In k (map_keys (set_entries entries m)) <->
  In k (List.map fst entries) \/ In k (map_keys m).
Proof.
  revert m. induction entries as [|[k' v'] es IH]; simpl; intros m.
  - tauto.
  - unfold set_entries in *. simpl. rewrite IH, in_keys_set. intuition.
Qed.
End MapFacts.

Section SortFacts.
Variable A : Type.
Variable key : A -> Z.


Lemma sort_insert_perm x l : Permutation (sort_insert (byKey key) x l) (x :: l).
Proof.
  induction l as [|y l IH]; simpl.
  - apply Permutation_refl.
  - destruct (Js.byKey key x y <=? 0)%Z.
    + apply Permutation_refl.
    + eapply perm_trans; [apply perm_skip, IH | apply perm_swap].
Qed.

Lemma array_sort_perm l : Permutation (array_sort (byKey key) l) l.
Proof.
  induction l as [|x l IH]; simpl.
  - apply perm_nil.
  - eapply perm_trans; [apply sort_insert_perm | apply perm_skip, IH].
Qed.

Lemma sort_insert_sorted x l :
  ~ In (key x) (List.map key l) ->
  StronglySorted (before key) l ->
  StronglySorted (before key) (sort_insert (byKey key) x l).
Proof.
  induction l as [|y l IH]; simpl; intros Hnotin Hs.
  - constructor; constructor.
  - inversion Hs as [|? ? Hs' Hall]; subst.
    unfold Js.byKey at 1.
    destruct (Z.leb_spec (key x - key y) 0) as [Hle|Hgt].
    + assert (Hlt : (key x < key y)%Z) by lia.
      constructor; [exact Hs|].
      constructor; [exact Hlt|].
      eapply Forall_impl; [|exact Hall].
      unfold Js.before. intros z Hz. lia.
    + constructor.
      * apply IH; [tauto | exact Hs'].
      * eapply Permutation_Forall; [apply Permutation_sym, sort_insert_perm|].
        constructor; [unfold Js.before; lia | exact Hall].
Qed.

Lemma array_sort_sorted l :
  NoDup (List.map key l) -> StronglySorted (before key) (array_sort (byKey key) l).
Proof.
  induction l as [|x l IH]; simpl; intros Hnd.
  - constructor.
  - inversion Hnd as [|? ? Hnotin Hnd']; subst.
    apply sort_insert_sorted; [|apply IH; exact Hnd'].
    intros Hin. apply Hnotin.
    eapply Permutation_in; [|exact Hin].
    apply Permutation_map, array_sort_perm.
Qed.
End SortFacts.

Lemma filter_non_null_app (A : Type) (l1 l2 : list (option A)) :
  filter_non_null (l1 ++ l2) = filter_non_null l1 ++ filter_non_null l2.
Proof.
  induction l1 as [|[a|] l1 IH]; simpl; [reflexivity | rewrite IH; reflexivity | exact IH].
Qed.

Lemma in_filter_non_null (A : Type) (l : list (option A)) (a : A) :
  In a (filter_non_null l) <-> In (Some a) l.
Proof.
  induction l as [|[b|] l IH]; simpl.
  - tauto.
  - rewrite IH. split; intros [H|H]; auto; left; congruence.
  - rewrite IH. split; [auto | intros [H|H]; [discriminate | exact H]].
Qed.

End JsFacts.

(** ** The canonical series *)

Module ChartFacts.
Import Js JsFacts Chart.

(** The entries handed to the [Map] constructor. *)
Local Notation "'entriesOf' l" :=
  (List.map (fun d => (CandlePoint.time d, d)) l) (at level 10, l at level 9).

Lemma entries_keyed (l : list CandlePoint.t) k d :
  In (k, d) (map_of_entries (entriesOf l)) -> k = CandlePoint.time d.
Proof.
  intros Hin. apply in_entries_inv in Hin. destruct Hin as [Hin|[]].
  apply in_map_iff in Hin. destruct Hin as [d' [Heq _]]. inversion Heq. reflexivity.
Qed.

Lemma values_times (l : list CandlePoint.t) :
  List.map CandlePoint.time (map_values (map_of_entries (entriesOf l)))
  = map_keys (map_of_entries (entriesOf l)).
Proof.
  unfold map_values, map_keys. rewrite map_map.
  apply map_ext_in. intros [k d] Hin. simpl.
  symmetry. apply (entries_keyed l). exact Hin.
Qed.

Lemma values_times_NoDup (l : list CandlePoint.t) :
  NoDup (List.map CandlePoint.time (map_values (map_of_entries (entriesOf l)))).
Proof.
  rewrite values_times. apply NoDup_keys_entries. constructor.
Qed.

Section WithDate.
Variable getTime : string -> option Z.

Lemma uniqueData_perm data :
  Permutation (uniqueData getTime data)
    (map_values (map_of_entries (entriesOf (chartData getTime data)))).
Proof. apply (array_sort_perm CandlePoint.time). Qed.

Lemma chartData_app l1 l2 :
  chartData getTime (l1 ++ l2) = chartData getTime l1 ++ chartData getTime l2.
Proof. unfold chartData. rewrite map_app. apply filter_non_null_app. Qed.

Lemma in_chartData p data :
  In p (chartData getTime data) <->
  exists tick, In tick data /\ toPoint getTime tick = Some p.
Proof.
  unfold chartData. rewrite in_filter_non_null, in_map_iff.
  split; intros [tick [H1 H2]]; exists tick; auto.
Qed.

Lemma chartData_unparseable data :
  (forall tick, In tick data -> getTime (MarketTick.timestamp tick) = None) ->
  chartData getTime data = [].
Proof.
  induction data as [|t data IH]; intros Hall; [reflexivity|].
  unfold chartData, toPoint in *. simpl.
  rewrite (Hall t (or_introl eq_refl)). apply IH.
  intros tick Hin. apply Hall. right. exact Hin.
Qed.

Lemma uniqueData_length data :
  List.length (uniqueData getTime data)
  = List.length (map_of_entries (entriesOf (chartData getTime data))).
Proof.
  rewrite (Permutation_length (uniqueData_perm data)).
  unfold map_values. apply length_map.
Qed.

Lemma chartData_nil_uniqueData data :
  chartData getTime data = [] -> uniqueData getTime data = [].
Proof. intros H. unfold uniqueData. rewrite H. reflexivity. Qed.

(** The point the series holds for a bucket is the map's value for it. *)
Lemma in_uniqueData p data :
  In p (uniqueData getTime data) <->
  map_get (CandlePoint.time p)
    (map_of_entries (entriesOf (chartData getTime data))) = Some p.
Proof.
  split.
  - intros Hin. apply (Permutation_in _ (uniqueData_perm data)) in Hin.
    unfold map_values in Hin. apply in_map_iff in Hin.
    destruct Hin as [[k d] [Hd Hin]]. simpl in Hd. subst d.
    pose proof (entries_keyed _ _ _ Hin) as Hk. subst k.
    apply in_map_get; [|exact Hin].
    apply NoDup_keys_entries. constructor.
  - intros Hget. apply map_get_in in Hget.
    apply (Permutation_in _ (Permutation_sym (uniqueData_perm data))).
    unfold map_values. apply in_map_iff. exists (CandlePoint.time p, p). auto.
Qed.
End WithDate.

End ChartFacts.

Module ChartSpec.
Import Js JsFacts Chart ChartFacts.

(** C1. Whatever the buffer, the canonical series is strictly ascending by
    time bucket: every point comes before every later point's bucket, and
    so no bucket occurs twice. *)
Theorem canonical_series_strictly_ascending
    (getTime : string -> option Z) (data : list MarketTick.t) :
  StronglySorted (fun a b => (CandlePoint.time a < CandlePoint.time b)%Z)
    (uniqueData getTime data)
  /\ NoDup (List.map CandlePoint.time (uniqueData getTime data)).
Proof.
  split.
  - apply (array_sort_sorted CandlePoint.time), values_times_NoDup.
  - eapply Permutation_NoDup; [|apply values_times_NoDup].
    apply Permutation_map, Permutation_sym, uniqueData_perm.
Qed.

(** C2. When [tick] is the last tick of the buffer that maps to its time
    bucket, the canonical series holds, for that bucket, one point, and it
    carries the open, high, low and close of [tick]. *)
Theorem last_tick_of_bucket_wins
    (getTime : string -> option Z)
    (data earlier later : list MarketTick.t) (tick : MarketTick.t) (ts : Z) :
  data = earlier ++ tick :: later ->
  getTime (MarketTick.timestamp tick) = Some ts ->
  (forall t ts', In t later -> getTime (MarketTick.timestamp t) = Some ts' ->
                 (ts' / 1000 <> ts / 1000)%Z) ->
  exists p,
    In p (uniqueData getTime data)
    /\ CandlePoint.time p = (ts / 1000)%Z
    /\ CandlePoint.open p = MarketTick.open tick
    /\ CandlePoint.high p = MarketTick.high tick
    /\ CandlePoint.low p = MarketTick.low tick
    /\ CandlePoint.close p = MarketTick.close tick
    /\ forall q, In q (uniqueData getTime data) ->
                 CandlePoint.time q = (ts / 1000)%Z -> q = p.
Proof.
  intros -> Hts Hlater.
  set (p := CandlePoint.mk (ts / 1000) (MarketTick.open tick) (MarketTick.high tick)
              (MarketTick.low tick) (MarketTick.close tick)).
  assert (Hp : toPoint getTime tick = Some p) by (unfold toPoint; rewrite Hts; reflexivity).
  assert (Hget : map_get (ts / 1000)
            (map_of_entries
               (List.map (fun d => (CandlePoint.time d, d))
                  (chartData getTime (earlier ++ tick :: later)))) = Some p).
  { rewrite chartData_app.
    change (tick :: later) with ([tick] ++ later). rewrite chartData_app.
    unfold chartData at 2. simpl List.map. rewrite Hp. simpl filter_non_null.
    change ([p] ++ chartData getTime later) with (p :: chartData getTime later).
    rewrite map_app, map_cons.
    apply map_get_entries_last.
    rewrite map_map. simpl. intros Hin. apply in_map_iff in Hin.
    destruct Hin as [q [Hq Hin]]. apply in_chartData in Hin.
    destruct Hin as [t [Ht Htq]]. unfold toPoint in Htq.
    destruct (getTime (MarketTick.timestamp t)) as [ts'|] eqn:Hts'; [|discriminate].
    inversion Htq; subst q. simpl in Hq. exact (Hlater t ts' Ht Hts' Hq). }
  exists p. repeat split; try reflexivity.
  - apply in_uniqueData. exact Hget.
  - intros q Hq Htime. apply in_uniqueData in Hq. rewrite Htime in Hq.
    congruence.
Qed.

Lemma last_tick_of_bucket_wins_example :
  exists p,
    In p (uniqueData JsDate.parseUtc
            [Sample.tick "2024-01-01T00:00:07.100Z" 1 2;
             Sample.tick "2024-01-01T00:00:07.900Z" 3 4;
             Sample.tick "2024-01-01T00:00:08.000Z" 5 6])
    /\ CandlePoint.time p = (1704067207900 / 1000)%Z
    /\ CandlePoint.open p = 3%float
    /\ CandlePoint.high p = 110%float
    /\ CandlePoint.low p = 90%float
    /\ CandlePoint.close p = 4%float
    /\ forall q,
         In q (uniqueData JsDate.parseUtc
                 [Sample.tick "2024-01-01T00:00:07.100Z" 1 2;
                  Sample.tick "2024-01-01T00:00:07.900Z" 3 4;
                  Sample.tick "2024-01-01T00:00:08.000Z" 5 6]) ->
         CandlePoint.time q = (1704067207900 / 1000)%Z -> q = p.
Proof.
  apply (@last_tick_of_bucket_wins JsDate.parseUtc _
           [Sample.tick "2024-01-01T00:00:07.100Z" 1 2]
           [Sample.tick "2024-01-01T00:00:08.000Z" 5 6]
           (Sample.tick "2024-01-01T00:00:07.900Z" 3 4) 1704067207900).
  - reflexivity.
  - vm_compute. reflexivity.
  - intros t ts' [<-|[]] Hts'. vm_compute in Hts'. inversion Hts'. vm_compute. discriminate.
Defined.

Lemma syncEffect_cases (getTime : string -> option Z) (refs : Refs)
    (data : list MarketTick.t) :
  syncEffect getTime refs data =
    if negb (seriesRef refs) then []
    else
      match uniqueData getTime data with
      | [] => []
      | _ :: _ =>
          SetData (uniqueData getTime data) ::
            (if (List.length (uniqueData getTime data) <=? 20)%nat && chartRef refs
             then [FitContent] else [])
      end.
Proof.
  unfold syncEffect. destruct (seriesRef refs); simpl; [|reflexivity].
  destruct data as [|t data]; [reflexivity|].
  simpl (List.length (t :: data) =? 0)%nat. cbv iota.
  destruct (chartData getTime (t :: data)) as [|p l] eqn:Hcd.
  - rewrite (chartData_nil_uniqueData _ _ Hcd). reflexivity.
  - simpl (List.length (p :: l) =? 0)%nat. cbv iota.
    destruct (uniqueData getTime (t :: data)); reflexivity.
Qed.

(** For any refs and any buffer: the fit command is issued exactly when the
    series and chart exist and the canonical series has at least one and at
    most 20 points; with 20 points it is issued, with 21 it is not. *)
Theorem auto_fit_iff_between_1_and_20
    (getTime : string -> option Z) (refs : Refs) (data : list MarketTick.t) :
  (In FitContent (syncEffect getTime refs data) <->
     seriesRef refs = true /\ chartRef refs = true
     /\ (1 <= List.length (uniqueData getTime data) <= 20)%nat)
  /\ (List.length (uniqueData getTime data) = 20%nat ->
      In FitContent (syncEffect getTime mounted data))
  /\ (List.length (uniqueData getTime data) = 21%nat ->
      ~ In FitContent (syncEffect getTime refs data)).
Proof.
  assert (Hiff : forall refs',
    In FitContent (syncEffect getTime refs' data) <->
      seriesRef refs' = true /\ chartRef refs' = true
      /\ (1 <= List.length (uniqueData getTime data) <= 20)%nat).
  { intros refs'. rewrite syncEffect_cases.
    destruct (seriesRef refs'); simpl.
    2:{ split; [intros [] | intros [H _]; discriminate]. }
    destruct (uniqueData getTime data) as [|p l]; simpl.
    - split; [intros [] | intros (_ & _ & H); lia].
    - destruct (Nat.leb_spec (List.length l) 19) as [Hle|Hgt];
        destruct (chartRef refs'); simpl.
      + split; [intros _; repeat split; lia | auto].
      + split; [intros [H|[]]; discriminate | intros (_ & H & _); discriminate].
      + split; [intros [H|[]]; discriminate | intros (_ & _ & H); lia].
      + split; [intros [H|[]]; discriminate | intros (_ & H & _); discriminate]. }
  split; [apply Hiff|]. split.
  - intros Hlen. apply Hiff. simpl. repeat split; lia.
  - intros Hlen Hin. apply Hiff in Hin. lia.
Qed.

Lemma auto_fit_iff_between_1_and_20_example :
  In FitContent (syncEffect JsDate.parseUtc mounted (Sample.buffer 20))
  /\ ~ In FitContent (syncEffect JsDate.parseUtc mounted (Sample.buffer 21)).
Proof.
  split.
  - apply (proj1 (proj2 (auto_fit_iff_between_1_and_20 JsDate.parseUtc mounted
                           (Sample.buffer 20)))).
    vm_compute. reflexivity.
  - apply (proj2 (proj2 (auto_fit_iff_between_1_and_20 JsDate.parseUtc mounted
                           (Sample.buffer 21)))).
    vm_compute. reflexivity.
Defined.

Lemma no_point_no_call (getTime : string -> option Z) (refs : Refs)
    (data : list MarketTick.t) :
  uniqueData getTime data = [] ->
  syncEffect getTime refs data = []
  /\ forall s : Surface, render getTime refs data s = s.
Proof.
  intros Hu.
  assert (He : syncEffect getTime refs data = []).
  { rewrite syncEffect_cases, Hu. destruct (seriesRef refs); reflexivity. }
  split; [exact He|].
  intros s. unfold render. rewrite He. reflexivity.
Qed.

(** C4. When no tick of the buffer has a timestamp that parses, the
    canonical series is empty and the effect calls neither [setData] nor
    [fitContent], so the surface stays as it was; and the same holds for
    the empty buffer. *)
Theorem unparseable_buffer_leaves_surface
    (getTime : string -> option Z) (refs : Refs) (data : list MarketTick.t) :
  (forall tick, In tick data -> getTime (MarketTick.timestamp tick) = None) ->
  (uniqueData getTime data = []
   /\ syncEffect getTime refs data = []
   /\ forall s : Surface, render getTime refs data s = s)
  /\ (uniqueData getTime [] = []
      /\ syncEffect getTime refs [] = []
      /\ forall s : Surface, render getTime refs [] s = s).
Proof.
  intros Hall.
  assert (Hu : uniqueData getTime data = [])
    by (apply chartData_nil_uniqueData, chartData_unparseable, Hall).
  split.
  - split; [exact Hu | apply no_point_no_call, Hu].
  - split; [reflexivity | apply no_point_no_call; reflexivity].
Qed.

Lemma unparseable_buffer_leaves_surface_example :
  (uniqueData JsDate.parseUtc
     [Sample.tick "not a date" 1 2; Sample.tick "" 3 4] = []
   /\ syncEffect JsDate.parseUtc mounted
        [Sample.tick "not a date" 1 2; Sample.tick "" 3 4] = []
   /\ forall s : Surface,
        render JsDate.parseUtc mounted
          [Sample.tick "not a date" 1 2; Sample.tick "" 3 4] s = s)
  /\ (uniqueData JsDate.parseUtc [] = []
      /\ syncEffect JsDate.parseUtc mounted [] = []
      /\ forall s : Surface, render JsDate.parseUtc mounted [] s = s).
Proof.
  apply (@unparseable_buffer_leaves_surface JsDate.parseUtc mounted
           [Sample.tick "not a date" 1 2; Sample.tick "" 3 4]).
  intros tick [<-|[<-|[]]]; reflexivity.
Defined.

(** C6. Two ticks stamped [2024-01-01T00:00:00Z] and
    [2024-01-01T00:00:00.500Z] are both kept in the dashboard's buffer, and
    the canonical series has exactly one point, at the bucket of that
    second, with the prices of the second tick. *)
Theorem same_second_scenario
    (getTime : string -> option Z) (t1 t2 : MarketTick.t) :
  JsDate.conforms getTime ->
  MarketTick.timestamp t1 = "2024-01-01T00:00:00Z"%string ->
  MarketTick.timestamp t2 = "2024-01-01T00:00:00.500Z"%string ->
  Dashboard.appendTick t2 (Dashboard.appendTick t1 []) = [t1; t2]
  /\ uniqueData getTime [t1; t2]
     = [CandlePoint.mk 1704067200 (MarketTick.open t2) (MarketTick.high t2)
          (MarketTick.low t2) (MarketTick.close t2)].
Proof.
  intros Hconf H1 H2. split.
  - unfold Dashboard.appendTick. simpl. rewrite H1, H2. reflexivity.
  - unfold uniqueData, chartData, toPoint. simpl List.map.
    rewrite H1, H2.
    rewrite (Hconf "2024-01-01T00:00:00Z"%string 1704067200000%Z eq_refl).
    rewrite (Hconf "2024-01-01T00:00:00.500Z"%string 1704067200500%Z eq_refl).
    reflexivity.
Qed.

Lemma same_second_scenario_example :
  Dashboard.appendTick (Sample.tick "2024-01-01T00:00:00.500Z" 3 4)
    (Dashboard.appendTick (Sample.tick "2024-01-01T00:00:00Z" 1 2) [])
  = [Sample.tick "2024-01-01T00:00:00Z" 1 2;
     Sample.tick "2024-01-01T00:00:00.500Z" 3 4]
  /\ uniqueData JsDate.parseUtc
       [Sample.tick "2024-01-01T00:00:00Z" 1 2;
        Sample.tick "2024-01-01T00:00:00.500Z" 3 4]
     = [CandlePoint.mk 1704067200 3%float 110%float 90%float 4%float].
Proof.
  apply (@same_second_scenario JsDate.parseUtc
           (Sample.tick "2024-01-01T00:00:00Z" 1 2)
           (Sample.tick "2024-01-01T00:00:00.500Z" 3 4)).
  - intros s ms H. exact H.
  - reflexivity.
  - reflexivity.
Defined.

End ChartSpec.

(** ** Handlers and invariants of the dashboard *)

Module DashboardFacts.
Import Dashboard.

Section Preservation.
Variable P : State -> Prop.

Lemma preserves_bind (A B : Type) (a : Action A) (f : A -> Action B) :
  preserves P a -> (forall x, preserves P (f x)) -> preserves P (bind a f).
Proof.
  intros Ha Hf. induction a as [x|error|k IH|g k IH|X e k IH]; simpl in *.
  - apply Hf.
  - exact I.
  - intros s. apply IH, Ha.
  - destruct Ha as [Hg Hk]. split; [exact Hg | apply IH, Hk].
  - intros x. apply IH, Ha.
Qed.

Lemma preserves_tryCatch (A : Type) (body : Action A)
    (handler : JsError -> Action A) :
  preserves P body -> (forall error, preserves P (handler error)) ->
  preserves P (tryCatch body handler).
Proof.
  intros Ha Hh. induction body as [x|error|k IH|g k IH|X e k IH]; simpl in *.
  - exact I.
  - apply Hh.
  - intros s. apply IH, Ha.
  - destruct Ha as [Hg Hk]. split; [exact Hg | apply IH, Hk].
  - intros x. apply IH, Ha.
Qed.

Lemma preserves_set (f : State -> State) :
  (forall st, P st -> P (f st)) -> preserves P (set f).
Proof. intros Hf. simpl. split; [exact Hf | exact I]. Qed.

Lemma preserves_guard (b : bool) (error : JsError) :
  preserves P (if b then Throw error else Done tt).
Proof. destruct b; exact I. Qed.

Lemma preserves_fetch (url method : string) : preserves P (fetch url method).
Proof. intros [res|error]; exact I. Qed.

Lemma preserves_json (T : Type) : preserves P (json T).
Proof. intros [data|error]; exact I. Qed.

(** What each setter of the component must keep. *)
Hypothesis keep_log :
  forall entry st, P st -> P (setLogs (fun prev => entry :: firstn 99 prev) st).
Hypothesis keep_connected : forall v st, P st -> P (setIsConnected v st).
Hypothesis keep_tick : forall v st, P st -> P (setCurrentTick v st).
Hypothesis keep_decision : forall v st, P st -> P (setAgentDecision v st).
Hypothesis keep_snapshot :
  forall data st, P st -> P (setChartData (fun _ => [data]) st).
Hypothesis keep_append :
  forall tick st, P st -> P (setChartData (appendTick tick) st).

Lemma preserves_addLog (msg : string) : preserves P (addLog msg).
Proof. intros timestamp. apply preserves_set. intros st. apply keep_log. Qed.

Lemma preserves_handler (toFixed : float -> nat -> string) (ev : Event) :
  preserves P (handler toFixed ev).
Proof.
  destruct ev as [ | | | | | m | [tick|error] | [decision|error] ];
    unfold handler, fetchInitialMarketData, fetchLastAgentDecision,
      handleForceUpdate, onConnect, onDisconnect, onStompError,
      onMarketMessage, onDecisionMessage;
    try exact I;
    repeat first
      [ apply preserves_tryCatch | apply preserves_bind
      | apply preserves_addLog | apply preserves_guard
      | apply preserves_fetch | apply preserves_json
      | apply preserves_set; intros ? ?; auto
      | intros ? ].
Qed.

Lemma run_preserves (now : nat -> string) (a : Action unit) (n : nat)
    (st : State) :
  preserves P a -> P st ->
  P (state (run now a n st))
  /\ match outcome (run now a n st) with
     | Suspended _ k => forall x, preserves P (k x)
     | _ => True
     end.
Proof.
  revert n st. induction a as [x|error|k IH|g k IH|X e k IH];
    simpl; intros n st Ha Hst.
  - auto.
  - auto.
  - apply IH; auto.
  - destruct Ha as [Hg Hk]. apply IH; auto.
  - auto.
Qed.

Lemma settle_preserves (r : Ran unit) (waiting : list Task) :
  P (state r) ->
  match outcome r with
  | Suspended _ k => forall x, preserves P (k x)
  | _ => True
  end ->
  Forall (taskPreserves P) waiting ->
  P (view (settle r waiting)) /\ Forall (taskPreserves P) (pending (settle r waiting)).
Proof.
  intros Hst Hout Hw. unfold settle.
  destruct (outcome r) as [x|error|X e k]; simpl; auto.
Qed.

(** A property every setter keeps holds in every reachable state. *)
Lemma reachable_invariant (toFixed : float -> nat -> string)
    (now : nat -> string) (c : Config) :
  P initialState -> reachable toFixed now c ->
  P (view c) /\ Forall (taskPreserves P) (pending c).
Proof.
  intros Hinit Hreach. induction Hreach as [|c c' Hreach [IHv IHp] Hstep].
  - split; [exact Hinit | constructor].
  - destruct Hstep as [c ev | c before after X e k reply Hpend].
    + destruct (@run_preserves now (handler toFixed ev) (reads c) (view c)
                  (preserves_handler toFixed ev) IHv) as [H1 H2].
      apply settle_preserves; assumption.
    + rewrite Hpend in IHp.
      apply Forall_app in IHp. destruct IHp as [Hb Ha].
      inversion Ha as [|? ? Hk Ha']; subst.
      destruct (@run_preserves now (k reply) (reads c) (view c) (Hk reply) IHv)
        as [H1 H2].
      apply settle_preserves; [assumption | assumption |].
      apply Forall_app. split; assumption.
Qed.
End Preservation.

End DashboardFacts.

Module DashboardSpec.
Import Dashboard DashboardFacts.
Open Scope string_scope.

(** *** Position block *)

Lemma hasOpenPosition_iff (d : AgentDecision.t) :
  hasOpenPosition (Some d) = true <->
  AgentDecision.positionSide d = Some "LONG"
  /\ exists size, AgentDecision.positionSize d = Some size
                  /\ (0 <? size)%float = true.
Proof.
  unfold hasOpenPosition, nullish.
  destruct (AgentDecision.positionSide d) as [side|];
    destruct (AgentDecision.positionSize d) as [size|]; simpl.
  - destruct (String.eqb_spec side "LONG") as [->|Hne]; simpl.
    + split.
      * intros H. split; [reflexivity | exists size; auto].
      * intros [_ [size' [Heq Hlt]]]. inversion Heq; subst. exact Hlt.
    + split; [discriminate | intros [Heq _]; congruence].
  - rewrite andb_false_r.
    split; [discriminate | intros [_ [size [Heq _]]]; discriminate].
  - split; [discriminate | intros [Heq _]; discriminate].
  - split; [discriminate | intros [Heq _]; discriminate].
Qed.

(** C5. For every decision the position block shows an open position
    exactly when [positionSide] is ["LONG"] and [positionSize] is present
    and greater than 0; a ["LONG"] decision of size 0 shows
    "No open position", whatever its detail fields hold. *)
Theorem open_position_iff_long_and_positive
    (toFixed : float -> nat -> string) (toLocaleTimeString : string -> string)
    (d : AgentDecision.t) (currentTick : option MarketTick.t) :
  (isOpenBlock (positionBlock toFixed toLocaleTimeString (Some d) currentTick) = true
   <-> AgentDecision.positionSide d = Some "LONG"
       /\ exists size, AgentDecision.positionSize d = Some size
                       /\ (0 <? size)%float = true)
  /\ (isOpenBlock (positionBlock toFixed toLocaleTimeString (Some d) currentTick) = false
      <-> positionBlock toFixed toLocaleTimeString (Some d) currentTick
          = NoOpenPosition "No open position")
  /\ (AgentDecision.positionSide d = Some "LONG" ->
      AgentDecision.positionSize d = Some 0%float ->
      positionBlock toFixed toLocaleTimeString (Some d) currentTick
      = NoOpenPosition "No open position").
Proof.
  split; [|split].
  - rewrite <- hasOpenPosition_iff. unfold positionBlock.
    destruct (hasOpenPosition (Some d)); simpl; tauto.
  - unfold positionBlock. destruct (hasOpenPosition (Some d)); simpl.
    + split; discriminate.
    + tauto.
  - intros Hside Hsize. unfold positionBlock, hasOpenPosition.
    rewrite Hside, Hsize. reflexivity.
Qed.

Lemma open_position_iff_long_and_positive_example :
  positionBlock Sample.toFixed Sample.toLocaleTimeString
    (Some (Sample.decision (Some "LONG") (Some 0%float))) None
  = NoOpenPosition "No open position".
Proof.
  apply (proj2 (proj2 (open_position_iff_long_and_positive
                         Sample.toFixed Sample.toLocaleTimeString
                         (Sample.decision (Some "LONG") (Some 0%float)) None)));
    reflexivity.
Defined.

Example long_with_size_shows_open_position :
  isOpenBlock (positionBlock Sample.toFixed Sample.toLocaleTimeString
                 (Some (Sample.decision (Some "LONG") (Some 0.5%float))) None)
  = true.
Proof. reflexivity. Qed.

Example none_with_size_shows_no_position :
  positionBlock Sample.toFixed Sample.toLocaleTimeString
    (Some (Sample.decision (Some "NONE") (Some 0.5%float))) None
  = NoOpenPosition "No open position".
Proof. reflexivity. Qed.

(** *** Percent change *)

(** C10. With no current tick, and with a current tick whose [open]
    equals 0, the percent change is exactly 0, and the header shows
    [toFixed] of 0: the division by [open] is not performed. *)
Theorem percent_change_guarded (toFixed : float -> nat -> string) :
  (forall t : MarketTick.t,
      (MarketTick.open t =? 0)%float = true ->
      percentChange (Some t) = 0%float
      /\ percentText toFixed (Some t) = toFixed 0%float 2%nat)
  /\ percentChange None = 0%float
  /\ percentText toFixed None = toFixed 0%float 2%nat.
Proof.
  split; [|split; reflexivity].
  intros t Hopen. unfold percentText, percentChange.
  rewrite Hopen. simpl. split; reflexivity.
Qed.

Lemma percent_change_guarded_example :
  percentChange (Some (Sample.tick "2024-01-01T00:00:00Z" 0 5)) = 0%float
  /\ percentText Sample.toFixed (Some (Sample.tick "2024-01-01T00:00:00Z" 0 5))
     = "0.00".
Proof.
  apply (proj1 (percent_change_guarded Sample.toFixed)
           (Sample.tick "2024-01-01T00:00:00Z" 0 5)).
  reflexivity.
Defined.

Example percent_change_of_a_rise :
  percentChange (Some (Sample.tick "2024-01-01T00:00:00Z" 2 5)) = 150%float.
Proof. reflexivity. Qed.

(** *** The log *)

Local Arguments firstn : simpl never.

Lemma substring_0_length (m : nat) (s : string) :
  (String.length (substring 0 m s) <= m)%nat.
Proof.
  revert s. induction m as [|m IH]; intros s.
  - destruct s; simpl; lia.
  - destruct s as [|c s]; simpl; [lia|]. specialize (IH s). lia.
Qed.

Lemma run_addLog (now : nat -> string) (msg : string) (n : nat) (st : State) :
  run now (addLog msg) n st
  = mkRan (Finished tt) (S n)
      (setLogs (fun prev => logEntry (now n) msg :: firstn 99 prev) st).
Proof. reflexivity. Qed.

Lemma addLog_length (entry : string) (prev : list string) :
  (List.length (entry :: firstn 99 prev) <= 100)%nat.
Proof. cbn [List.length]. pose proof (firstn_le_length 99 prev). lia. Qed.

Lemma firstn_app_cons_firstn (A : Type) (x : A) (prev l : list A) (m k : nat) :
  (k <= S m)%nat ->
  firstn k (l ++ x :: firstn m prev) = firstn k (l ++ x :: prev).
Proof.
  revert k. induction l as [|a l IH]; intros k Hk; destruct k as [|k];
    try reflexivity.
  - rewrite !app_nil_l, !firstn_cons, firstn_firstn.
    replace (Nat.min k m) with k by lia. reflexivity.
  - rewrite <- !app_comm_cons, !firstn_cons. f_equal. apply IH. lia.
Qed.

Lemma runAll_addLog (now : nat -> string) (msgs : list string) (n : nat)
    (st : State) :
  (List.length (logs st) <= 100)%nat ->
  let r := runAll now (List.map addLog msgs) n st in
  fst r = (n + List.length msgs)%nat
  /\ logs (snd r) = firstn 100 (rev (stamped now n msgs) ++ logs st)%list
  /\ isConnected (snd r) = isConnected st
  /\ currentTick (snd r) = currentTick st
  /\ agentDecision (snd r) = agentDecision st
  /\ chartData (snd r) = chartData st.
Proof.
  cbv zeta. revert n st. induction msgs as [|msg msgs IH]; intros n st Hlen.
  - cbn [runAll List.map stamped rev fst snd List.length app].
    repeat split; try lia. symmetry. apply firstn_all2. exact Hlen.
  - cbn [runAll List.map stamped rev List.length]. rewrite run_addLog.
    cbn [clockReads state].
    destruct (IH (S n)
      (setLogs (fun prev => logEntry (now n) msg :: firstn 99 prev) st)
      (addLog_length _ _)) as (H1 & H2 & H3 & H4 & H5 & H6).
    repeat split; try assumption; try lia.
    rewrite H2. cbn [logs setLogs]. rewrite <- app_assoc.
    cbn [app]. apply firstn_app_cons_firstn. lia.
Qed.

(** C8. Each [addLog] call puts one entry, stamped with the clock read in
    that call, in front of the first 99 entries of the log; so after any
    run of calls the log is the entries written, most recent first, then
    the older ones, cut at 100; and in no reachable state of the dashboard
    does the log hold more than 100 entries. *)
Theorem log_most_recent_first_capped
    (toFixed : float -> nat -> string) (now : nat -> string) :
  (forall msg n st,
      let r := run now (addLog msg) n st in
      outcome r = Finished tt
      /\ clockReads r = S n
      /\ loggedOnce ("[" ++ now n ++ "] " ++ msg) st (state r)
      /\ (List.length (logs (state r)) <= 100)%nat)
  /\ (forall msgs n st,
        (List.length (logs st) <= 100)%nat ->
        let r := runAll now (List.map addLog msgs) n st in
        logs (snd r) = firstn 100 (rev (stamped now n msgs) ++ logs st)%list
        /\ (List.length (logs (snd r)) <= 100)%nat)
  /\ (forall c, reachable toFixed now c ->
                (List.length (logs (view c)) <= 100)%nat).
Proof.
  split; [|split].
  - intros msg n st. rewrite run_addLog. cbv zeta. simpl.
    repeat split. pose proof (firstn_le_length 99 (logs st)). lia.
  - intros msgs n st Hlen.
    destruct (runAll_addLog now msgs n st Hlen) as (_ & H & _).
    cbv zeta. rewrite H. split; [reflexivity|].
    apply firstn_le_length.
  - intros c Hreach.
    refine (proj1 (@reachable_invariant
                     (fun st => (List.length (logs st) <= 100)%nat)
                     _ _ _ _ _ _ toFixed now c _ Hreach)).
    + intros entry st _. apply addLog_length.
    + intros v st H. exact H.
    + intros v st H. exact H.
    + intros v st H. exact H.
    + intros data st H. exact H.
    + intros tick st H. exact H.
    + apply Nat.le_0_l.
Qed.

Lemma log_most_recent_first_capped_example :
  logs (snd (runAll Sample.now (List.map addLog ["first"; "second"; "third"])
               0 initialState))
  = ["[12:00:02] third"; "[12:00:01] second"; "[12:00:00] first"]
  /\ (List.length
        (logs (snd (runAll Sample.now (List.map addLog (repeat "again" 150))
                      0 initialState))) <= 100)%nat.
Proof.
  split.
  - apply (proj1 (proj2 (log_most_recent_first_capped Sample.toFixed Sample.now))
             ["first"; "second"; "third"] 0%nat initialState).
    simpl. lia.
  - apply (proj1 (proj2 (log_most_recent_first_capped Sample.toFixed Sample.now))
             (repeat "again" 150) 0%nat initialState).
    simpl. lia.
Defined.

(** *** Force update *)

Example force_update_http_500 :
  let r := runWithFetch Sample.now handleForceUpdate
             (Resolved (mkResponse false)) 0 initialState in
  outcome r = Finished tt
  /\ logs (state r)
     = ["[12:00:01] ERROR: Force update failed - Error: Force update failed";
        "[12:00:00] Requesting force update..."]
  /\ isConnected (state r) = false.
Proof. cbv zeta. repeat split. Qed.

Example force_update_long_network_error :
  logs (state (runWithFetch Sample.now handleForceUpdate
                 (Rejected (mkError "TypeError"
                    "NetworkError when attempting to fetch resource."))
                 0 (setIsConnected true initialState)))
  = ["[12:00:01] ERROR: Force update failed - TypeError: NetworkError when attempting ";
     "[12:00:00] Requesting force update..."].
Proof. reflexivity. Qed.

(** C7. [handleForceUpdate] logs that it asks, sends one POST request and
    waits.  When the reply is a failure (a response that is not ok, or a
    rejected request), the handler ends there, without a second request,
    and what it changes is the log alone: one entry more, whose message
    starts with [ERROR:] and ends with the error's text cut at 40
    characters.  The connection flag is as it was. *)
Theorem force_update_failure_logs_one_error
    (now : nat -> string) (n : nat) (st : State) :
  exists k : FetchOutcome -> Action unit,
    run now handleForceUpdate n st
    = mkRan
        (Suspended
           (HttpFetch "http://localhost:8081/api/market/force-update" "POST") k)
        (S n)
        (setLogs (fun prev =>
           logEntry (now n) "Requesting force update..." :: firstn 99 prev) st)
    /\ forall (reply : FetchOutcome) (text : string) (n' : nat) (st' : State),
         (reply = Resolved (mkResponse false)
          /\ text = "Error: Force update failed")
         \/ (exists error, reply = Rejected error /\ text = String_ error) ->
         let msg := "ERROR: Force update failed - " ++ substring 0 40 text in
         let r := run now (k reply) n' st' in
         outcome r = Finished tt
         /\ clockReads r = S n'
         /\ loggedOnce ("[" ++ now n' ++ "] " ++ msg) st' (state r)
         /\ prefix "ERROR:" msg = true
         /\ (String.length (substring 0 40 text) <= 40)%nat.
Proof.
  eexists. split; [reflexivity|].
  intros reply text n' st' Hfail. cbv zeta.
  assert (Hlen := substring_0_length 40 text).
  destruct Hfail as [[-> ->] | [error [-> ->]]];
    (split; [reflexivity|]); (split; [reflexivity|]);
    (split; [repeat split|]); (split; [reflexivity | exact Hlen]).
Qed.

(** *** The tick buffer *)

Lemma in_timestamps_filter (f : MarketTick.t -> bool) (prev : list MarketTick.t)
    (s : string) :
  In s (timestamps (filter f prev)) -> In s (timestamps prev).
Proof.
  unfold timestamps. rewrite !in_map_iff.
  intros [d [Hd Hin]]. apply filter_In in Hin. exists d. tauto.
Qed.

Lemma NoDup_timestamps_filter (f : MarketTick.t -> bool)
    (prev : list MarketTick.t) :
  NoDup (timestamps prev) -> NoDup (timestamps (filter f prev)).
Proof.
  induction prev as [|d prev IH]; simpl; intros Hnd; [constructor|].
  inversion Hnd as [|? ? Hnotin Hnd']; subst.
  destruct (f d); simpl.
  - constructor; [|apply IH, Hnd'].
    intros Hin. apply Hnotin. apply (in_timestamps_filter f). exact Hin.
  - apply IH, Hnd'.
Qed.

Lemma appendTick_NoDup (tick : MarketTick.t) (prev : list MarketTick.t) :
  NoDup (timestamps prev) -> NoDup (timestamps (appendTick tick prev)).
Proof.
  intros Hnd. unfold appendTick, timestamps. rewrite map_app. simpl.
  apply NoDup_app.
  - apply NoDup_timestamps_filter. exact Hnd.
  - constructor; [intros [] | constructor].
  - intros s Hin [<-|[]]. apply in_map_iff in Hin.
    destruct Hin as [d [Hd Hin]]. apply filter_In in Hin.
    destruct Hin as [_ Hne]. rewrite Hd, String.eqb_refl in Hne. discriminate.
Qed.

(** C9. The market handler replaces the buffer by the ticks whose
    timestamp string differs from the incoming one, in their order,
    followed by the incoming tick; this keeps the timestamps of the buffer
    pairwise different, and they are so in every reachable state of the
    dashboard. *)
Theorem buffer_timestamps_unique
    (toFixed : float -> nat -> string) (now : nat -> string) :
  (forall tick n st,
      chartData (state (run now (onMarketMessage (JsonValue tick)) n st))
      = (filter (fun d => negb (String.eqb (MarketTick.timestamp d)
                                           (MarketTick.timestamp tick)))
                (chartData st) ++ [tick])%list)
  /\ (forall tick prev,
        NoDup (timestamps prev) -> NoDup (timestamps (appendTick tick prev)))
  /\ (forall c, reachable toFixed now c ->
                NoDup (timestamps (chartData (view c)))).
Proof.
  split; [|split].
  - reflexivity.
  - apply appendTick_NoDup.
  - intros c Hreach.
    refine (proj1 (@reachable_invariant
                     (fun st => NoDup (timestamps (chartData st)))
                     _ _ _ _ _ _ toFixed now c _ Hreach)).
    + intros entry st H. exact H.
    + intros v st H. exact H.
    + intros v st H. exact H.
    + intros v st H. exact H.
    + intros data st _. simpl. constructor; [intros [] | constructor].
    + intros tick st H. simpl. apply appendTick_NoDup. exact H.
    + constructor.
Qed.

Lemma buffer_timestamps_unique_example :
  NoDup (timestamps
           (appendTick (Sample.tick "2024-01-01T00:00:00Z" 3 4)
              [Sample.tick "2024-01-01T00:00:00Z" 1 2;
               Sample.tick "2024-01-01T00:00:01Z" 1 2])).
Proof.
  apply (proj1 (proj2 (buffer_timestamps_unique Sample.toFixed Sample.now))).
  repeat constructor; simpl; intuition discriminate.
Defined.

Example appendTick_replaces_same_timestamp :
  appendTick (Sample.tick "2024-01-01T00:00:00Z" 3 4)
    [Sample.tick "2024-01-01T00:00:00Z" 1 2;
     Sample.tick "2024-01-01T00:00:01Z" 1 2]
  = [Sample.tick "2024-01-01T00:00:01Z" 1 2;
     Sample.tick "2024-01-01T00:00:00Z" 3 4].
Proof. reflexivity. Qed.

End DashboardSpec.

(** ** More on the chart *)

Module ChartExtra.
Import Js JsFacts Chart ChartFacts.

Lemma map_set_fresh (V : Type) (k : Z) (v : V) (m : JsMap V) :
  ~ In k (map_keys m) -> map_set k v m = m ++ [(k, v)].
Proof.
  induction m as [|[k0 v0] m IH]; simpl; intros Hfresh.
  - reflexivity.
  - destruct (Z.eqb_spec k0 k) as [->|Hne]; [tauto|].
    rewrite IH by tauto. reflexivity.
Qed.

Lemma set_entries_fresh (V : Type) (entries : list (Z * V)) (m : JsMap V) :
  NoDup (List.map fst entries) ->
  (forall k, In k (List.map fst entries) -> ~ In k (map_keys m)) ->
  set_entries entries m = m ++ entries.
Proof.
  revert m. induction entries as [|[k v] es IH]; simpl; intros m Hnd Hdisj.
  - symmetry. apply app_nil_r.
  - inversion Hnd as [|? ? Hnotin Hnd']; subst.
    unfold set_entries in *. simpl.
    rewrite map_set_fresh by (apply Hdisj; auto).
    rewrite IH.
    + rewrite <- app_assoc. reflexivity.
    + exact Hnd'.
    + intros k' Hin Hin'. unfold map_keys in Hin'. rewrite map_app in Hin'.
      apply in_app_or in Hin'. destruct Hin' as [Hin'|[<-|[]]].
      * exact (Hdisj k' (or_intror Hin) Hin').
      * exact (Hnotin Hin).
Qed.

Lemma sorted_perm_eq (A : Type) (key : A -> Z) (l1 l2 : list A) :
  StronglySorted (before key) l1 -> StronglySorted (before key) l2 ->
  Permutation l1 l2 -> l1 = l2.
Proof.
  revert l2. induction l1 as [|a l1 IH]; intros l2 Hs1 Hs2 Hperm.
  - apply Permutation_nil in Hperm. congruence.
  - destruct l2 as [|b l2].
    + apply Permutation_sym, Permutation_nil in Hperm. discriminate.
    + inversion Hs1 as [|? ? Hs1' Hall1]; subst.
      inversion Hs2 as [|? ? Hs2' Hall2]; subst.
      assert (Hab : a = b).
      { assert (Ha : In a (b :: l2))
          by (eapply Permutation_in; [exact Hperm | left; reflexivity]).
        assert (Hb : In b (a :: l1))
          by (eapply Permutation_in; [apply Permutation_sym, Hperm | left; reflexivity]).
        destruct Ha as [Ha|Ha]; [congruence|].
        destruct Hb as [Hb|Hb]; [congruence|].
        rewrite Forall_forall in Hall1, Hall2.
        specialize (Hall1 b Hb). specialize (Hall2 a Ha).
        unfold before in *. lia. }
      subst b. f_equal. apply IH; try assumption.
      eapply Permutation_cons_inv. exact Hperm.
Qed.

Lemma Permutation_filter_non_null (A : Type) (l l' : list (option A)) :
  Permutation l l' -> Permutation (filter_non_null l) (filter_non_null l').
Proof.
  induction 1 as [|[x|] l l' _ IH|[x|] [y|] l|l l' l'' _ IH1 _ IH2]; simpl.
  - apply perm_nil.
  - apply perm_skip, IH.
  - exact IH.
  - apply perm_swap.
  - apply Permutation_refl.
  - apply Permutation_refl.
  - apply Permutation_refl.
  - eapply perm_trans; eassumption.
Qed.

Section WithDate.
Variable getTime : string -> option Z.

Lemma chartData_perm (data data' : list MarketTick.t) :
  Permutation data data' ->
  Permutation (chartData getTime data) (chartData getTime data').
Proof.
  intros H. unfold chartData.
  apply Permutation_filter_non_null, Permutation_map, H.
Qed.

Lemma uniqueData_distinct (data : list MarketTick.t) :
  NoDup (List.map CandlePoint.time (chartData getTime data)) ->
  uniqueData getTime data = array_sort compareTime (chartData getTime data).
Proof.
  intros Hnd. unfold uniqueData, map_of_entries.
  rewrite set_entries_fresh.
  - simpl. unfold map_values. rewrite map_map. simpl. rewrite map_id. reflexivity.
  - rewrite map_map. simpl. exact Hnd.
  - intros k _ [].
Qed.

Lemma chartData_length (data : list MarketTick.t) :
  (List.length (chartData getTime data) <= List.length data)%nat.
Proof.
  unfold chartData. induction data as [|t data IH]; simpl; [lia|].
  destruct (toPoint getTime t); simpl; lia.
Qed.

Lemma uniqueData_length_le (data : list MarketTick.t) :
  (List.length (uniqueData getTime data) <= List.length data)%nat.
Proof.
  eapply Nat.le_trans; [|apply chartData_length].
  rewrite uniqueData_length.
  set (es := List.map (fun d => (CandlePoint.time d, d)) (chartData getTime data)).
  replace (List.length (chartData getTime data)) with (List.length (List.map fst es))
    by (unfold es; rewrite !length_map; reflexivity).
  replace (List.length (map_of_entries es))
    with (List.length (map_keys (map_of_entries es)))
    by (unfold map_keys; apply length_map).
  apply NoDup_incl_length.
  - apply NoDup_keys_entries. constructor.
  - intros k Hin. apply in_keys_entries in Hin. destruct Hin as [Hin|[]]. exact Hin.
Qed.

Lemma uniqueData_nil_iff (data : list MarketTick.t) :
  uniqueData getTime data = [] <->
  forall tick, In tick data -> getTime (MarketTick.timestamp tick) = None.
Proof.
  split.
  - intros Hnil tick Hin.
    destruct (getTime (MarketTick.timestamp tick)) as [ts|] eqn:Hts; [|reflexivity].
    exfalso.
    set (p := CandlePoint.mk (ts / 1000) (MarketTick.open tick) (MarketTick.high tick)
                (MarketTick.low tick) (MarketTick.close tick)).
    assert (Hp : In p (chartData getTime data)).
    { apply in_chartData. exists tick. split; [exact Hin|].
      unfold toPoint. rewrite Hts. reflexivity. }
    assert (Hk : In (CandlePoint.time p)
                   (map_keys (map_of_entries
                      (List.map (fun d => (CandlePoint.time d, d))
                         (chartData getTime data))))).
    { apply in_keys_entries. left. rewrite map_map.
      exact (in_map CandlePoint.time _ _ Hp). }
    rewrite <- values_times in Hk.
    eapply Permutation_in in Hk;
      [|apply Permutation_map, Permutation_sym, uniqueData_perm].
    rewrite Hnil in Hk. exact Hk.
  - intros Hall. apply chartData_nil_uniqueData, chartData_unparseable, Hall.
Qed.
End WithDate.

Section Series.
Variable getTime : string -> option Z.

Lemma in_uniqueData_tick (data : list MarketTick.t) (p : CandlePoint.t) :
  In p (uniqueData getTime data) ->
  exists tick, In tick data /\ toPoint getTime tick = Some p.
Proof.
  intros Hin. apply in_uniqueData in Hin. apply map_get_in in Hin.
  apply in_entries_inv in Hin. destruct Hin as [Hin|[]].
  apply in_map_iff in Hin. destruct Hin as [q [Heq Hq]].
  inversion Heq; subst q. apply in_chartData. exact Hq.
Qed.

Lemma bucket_in_uniqueData (data : list MarketTick.t) (tick : MarketTick.t) (ts : Z) :
  In tick data -> getTime (MarketTick.timestamp tick) = Some ts ->
  exists p, In p (uniqueData getTime data) /\ CandlePoint.time p = (ts / 1000)%Z.
Proof.
  intros Hin Hts.
  set (p := CandlePoint.mk (ts / 1000) (MarketTick.open tick) (MarketTick.high tick)
              (MarketTick.low tick) (MarketTick.close tick)).
  assert (Hp : In p (chartData getTime data)).
  { apply in_chartData. exists tick. split; [exact Hin|].
    unfold toPoint. rewrite Hts. reflexivity. }
  assert (Hk : In (CandlePoint.time p)
                 (map_keys (map_of_entries
                    (List.map (fun d => (CandlePoint.time d, d))
                       (chartData getTime data))))).
  { apply in_keys_entries. left. rewrite map_map.
    exact (in_map CandlePoint.time _ _ Hp). }
  rewrite <- values_times in Hk.
  eapply Permutation_in in Hk;
    [|apply Permutation_map, Permutation_sym, uniqueData_perm].
  apply in_map_iff in Hk. destruct Hk as [q [Hq Hin']].
  exists q. split; [exact Hin' | exact Hq].
Qed.

(** Every point of the canonical series is the point of a tick of the
    buffer, with that tick's prices, and every tick whose timestamp parses
    has its time bucket in the series: no bucket is invented or lost. *)
Theorem series_buckets_are_buffer_buckets (data : list MarketTick.t) :
  (forall p, In p (uniqueData getTime data) ->
     exists tick ts,
       In tick data
       /\ getTime (MarketTick.timestamp tick) = Some ts
       /\ p = CandlePoint.mk (ts / 1000) (MarketTick.open tick)
                (MarketTick.high tick) (MarketTick.low tick)
                (MarketTick.close tick))
  /\ (forall tick ts,
        In tick data -> getTime (MarketTick.timestamp tick) = Some ts ->
        exists p, In p (uniqueData getTime data)
                  /\ CandlePoint.time p = (ts / 1000)%Z).
Proof.
  split.
  - intros p Hin. destruct (in_uniqueData_tick _ _ Hin) as [tick [Ht Hp]].
    unfold toPoint in Hp.
    destruct (getTime (MarketTick.timestamp tick)) as [ts|] eqn:Hts; [|discriminate].
    exists tick, ts. inversion Hp. auto.
  - apply bucket_in_uniqueData.
Qed.

Lemma uniqueData_not_nil_iff (data : list MarketTick.t) :
  uniqueData getTime data <> [] <->
  exists tick, In tick data /\ getTime (MarketTick.timestamp tick) <> None.
Proof.
  split.
  - intros Hne. destruct (uniqueData getTime data) as [|p l] eqn:Hu; [congruence|].
    destruct (in_uniqueData_tick data p) as [tick [Hin Hp]].
    { rewrite Hu. left. reflexivity. }
    exists tick. split; [exact Hin|]. unfold toPoint in Hp.
    destruct (getTime (MarketTick.timestamp tick)); [discriminate | discriminate].
  - intros [tick [Hin Hts]] Hnil. apply Hts.
    exact (proj1 (uniqueData_nil_iff getTime data) Hnil tick Hin).
Qed.

(** The effect touches the surface exactly when the series object exists and
    at least one tick of the buffer has a timestamp that parses; it then
    calls [setData] with the canonical series first, followed by
    [fitContent] or by nothing. *)
Theorem surface_updated_iff_a_tick_parses (refs : Refs) (data : list MarketTick.t) :
  (syncEffect getTime refs data <> [] <->
     seriesRef refs = true
     /\ exists tick, In tick data /\ getTime (MarketTick.timestamp tick) <> None)
  /\ (syncEffect getTime refs data = []
      \/ syncEffect getTime refs data = [SetData (uniqueData getTime data)]
      \/ syncEffect getTime refs data
         = [SetData (uniqueData getTime data); FitContent]).
Proof.
  rewrite <- uniqueData_not_nil_iff, ChartSpec.syncEffect_cases.
  destruct (seriesRef refs); simpl.
  - destruct (uniqueData getTime data) as [|p l] eqn:Hu.
    + split; [|left; reflexivity]. split; [congruence | intros [_ H]; congruence].
    + split.
      * split; [intros _; split; [reflexivity | discriminate] | discriminate].
      * destruct ((List.length (p :: l) <=? 20)%nat && chartRef refs); auto.
  - split; [|left; reflexivity].
    split; [congruence | intros [H _]; discriminate].
Qed.

(** A buffer of at most 20 ticks of which one at least parses is always
    fitted: with chart and series in place the effect calls [setData] with
    the canonical series and then [fitContent]. *)
Theorem small_buffer_is_fitted (refs : Refs) (data : list MarketTick.t)
    (tick : MarketTick.t) (ts : Z) :
  seriesRef refs = true -> chartRef refs = true ->
  (List.length data <= 20)%nat ->
  In tick data -> getTime (MarketTick.timestamp tick) = Some ts ->
  syncEffect getTime refs data
  = [SetData (uniqueData getTime data); FitContent].
Proof.
  intros Hs Hc Hlen Hin Hts.
  rewrite ChartSpec.syncEffect_cases, Hs, Hc. simpl.
  destruct (uniqueData getTime data) as [|p l] eqn:Hu.
  - exfalso. pose proof (proj1 (uniqueData_nil_iff getTime data) Hu tick Hin).
    congruence.
  - pose proof (uniqueData_length_le getTime data) as Hle. rewrite Hu in Hle.
    destruct (Nat.leb_spec (List.length (p :: l)) 20) as [_|Hgt]; [reflexivity | lia].
Qed.

(** When no two ticks of the buffer share a time bucket, the canonical
    series does not depend on the order of the buffer. *)
Theorem series_order_independent (data data' : list MarketTick.t) :
  NoDup (List.map CandlePoint.time (chartData getTime data)) ->
  Permutation data data' ->
  uniqueData getTime data' = uniqueData getTime data.
Proof.
  intros Hnd Hperm.
  pose proof (chartData_perm getTime Hperm) as Hcd.
  assert (Hnd' : NoDup (List.map CandlePoint.time (chartData getTime data')))
    by (eapply Permutation_NoDup; [apply Permutation_map, Hcd | exact Hnd]).
  rewrite !uniqueData_distinct by assumption.
  apply (@sorted_perm_eq _ CandlePoint.time).
  - apply (array_sort_sorted CandlePoint.time). exact Hnd'.
  - apply (array_sort_sorted CandlePoint.time). exact Hnd.
  - eapply perm_trans; [apply (array_sort_perm CandlePoint.time)|].
    eapply perm_trans; [apply Permutation_sym, Hcd|].
    apply Permutation_sym, (array_sort_perm CandlePoint.time).
Qed.
End Series.

Lemma small_buffer_is_fitted_example :
  syncEffect JsDate.parseUtc mounted
    [Sample.tick "not a date" 1 2; Sample.tick "2024-01-01T00:00:05Z" 3 4]
  = [SetData (uniqueData JsDate.parseUtc
       [Sample.tick "not a date" 1 2; Sample.tick "2024-01-01T00:00:05Z" 3 4]);
     FitContent].
Proof.
  apply (@small_buffer_is_fitted JsDate.parseUtc mounted _
           (Sample.tick "2024-01-01T00:00:05Z" 3 4) 1704067205000).
  - reflexivity.
  - reflexivity.
  - simpl. lia.
  - right. left. reflexivity.
  - vm_compute. reflexivity.
Defined.

Lemma series_order_independent_example :
  uniqueData JsDate.parseUtc
    [Sample.tick "2024-01-01T00:00:09Z" 5 6; Sample.tick "bad" 0 0;
     Sample.tick "2024-01-01T00:00:05Z" 3 4]
  = uniqueData JsDate.parseUtc
      [Sample.tick "2024-01-01T00:00:05Z" 3 4;
       Sample.tick "2024-01-01T00:00:09Z" 5 6; Sample.tick "bad" 0 0].
Proof.
  apply (@series_order_independent JsDate.parseUtc).
  - vm_compute. repeat constructor; simpl; intuition discriminate.
  - exact (Permutation_cons_append
             [Sample.tick "2024-01-01T00:00:09Z" 5 6; Sample.tick "bad" 0 0]
             (Sample.tick "2024-01-01T00:00:05Z" 3 4)).
Defined.

Section Surface.
Variable getTime : string -> option Z.

Lemma render_cases (refs : Refs) (data : list MarketTick.t) (s : Surface) :
  render getTime refs data s =
    if seriesRef refs then
      match uniqueData getTime data with
      | [] => s
      | _ :: _ =>
          mkSurface (uniqueData getTime data)
            (if (List.length (uniqueData getTime data) <=? 20)%nat && chartRef refs
             then S (fits s) else fits s)
      end
    else s.
Proof.
  unfold render. rewrite ChartSpec.syncEffect_cases.
  destruct (seriesRef refs); simpl; [|reflexivity].
  destruct (uniqueData getTime data) as [|p l]; [reflexivity|].
  destruct ((List.length (p :: l) <=? 20)%nat && chartRef refs); reflexivity.
Qed.

(** The effect replaces the series, it does not merge: after it has run on
    a succession of buffers the surface shows the canonical series of the
    last buffer, whatever came before; a last buffer with no tick that parses
    leaves the surface as the earlier runs left it. *)
Theorem surface_shows_last_effective_series
    (refs : Refs) (buffers : list (list MarketTick.t))
    (data : list MarketTick.t) (s : Surface) :
  (seriesRef refs = true -> uniqueData getTime data <> [] ->
     shown (renderAll getTime refs (buffers ++ [data]) s)
     = uniqueData getTime data)
  /\ (uniqueData getTime data = [] ->
        renderAll getTime refs (buffers ++ [data]) s
        = renderAll getTime refs buffers s).
Proof.
  unfold renderAll. rewrite fold_left_app. simpl. rewrite render_cases.
  split.
  - intros Hs Hne. rewrite Hs.
    destruct (uniqueData getTime data); [congruence | reflexivity].
  - intros Hnil. rewrite Hnil. destruct (seriesRef refs); reflexivity.
Qed.

Lemma reachableRefs_together (refs : Refs) :
  reachableRefs refs -> seriesRef refs = chartRef refs.
Proof.
  induction 1 as [|container refs _ IH]; [reflexivity|].
  unfold mountEffect. destruct container; simpl; [reflexivity | exact IH].
Qed.

(** The first effect stores chart and series together, so in the data
    effect the test of [chartRef.current] never decides: however often the
    first effect has run, [fitContent] is called exactly when the series
    exists and the canonical series has 1 to 20 points. *)
Theorem fit_guard_follows_series (refs : Refs) (data : list MarketTick.t) :
  reachableRefs refs ->
  seriesRef refs = chartRef refs
  /\ (In FitContent (syncEffect getTime refs data) <->
      seriesRef refs = true
      /\ (1 <= List.length (uniqueData getTime data) <= 20)%nat).
Proof.
  intros Hreach. pose proof (reachableRefs_together Hreach) as Heq.
  split; [exact Heq|].
  rewrite ChartSpec.syncEffect_cases, <- Heq.
  destruct (seriesRef refs); simpl.
  - destruct (uniqueData getTime data) as [|p l]; simpl.
    + split; [intros [] | intros [_ H]; lia].
    + rewrite andb_true_r.
      destruct (Nat.leb_spec (List.length l) 19) as [Hle|Hgt]; simpl.
      * split; [intros _; split; [reflexivity | lia] | auto].
      * split; [intros [H|[]]; discriminate | intros [_ H]; lia].
  - split; [intros [] | intros [H _]; discriminate].
Qed.

(** The dashboard's buffer update and the chart together: once a tick whose
    timestamp parses has been put in the buffer by the market handler, the
    canonical series holds that tick's point, and no other point for its
    bucket. *)
Theorem newest_tick_is_charted
    (tick : MarketTick.t) (prev : list MarketTick.t) (ts : Z) :
  getTime (MarketTick.timestamp tick) = Some ts ->
  let p := CandlePoint.mk (ts / 1000) (MarketTick.open tick)
             (MarketTick.high tick) (MarketTick.low tick)
             (MarketTick.close tick) in
  In p (uniqueData getTime (Dashboard.appendTick tick prev))
  /\ forall q, In q (uniqueData getTime (Dashboard.appendTick tick prev)) ->
               CandlePoint.time q = (ts / 1000)%Z -> q = p.
Proof.
  intros Hts p.
  assert (Hp : toPoint getTime tick = Some p)
    by (unfold toPoint; rewrite Hts; reflexivity).
  assert (Hget :
    map_get (ts / 1000)
      (map_of_entries
         (List.map (fun d => (CandlePoint.time d, d))
            (chartData getTime (Dashboard.appendTick tick prev)))) = Some p).
  { unfold Dashboard.appendTick. rewrite chartData_app.
    unfold chartData at 2. simpl List.map. rewrite Hp. simpl filter_non_null.
    rewrite map_app, map_cons. simpl List.map at 2.
    apply (map_get_entries_last (ts / 1000) p _ []). intros []. }
  split.
  - apply in_uniqueData. exact Hget.
  - intros q Hq Htime. apply in_uniqueData in Hq. rewrite Htime in Hq. congruence.
Qed.
End Surface.

Lemma fit_guard_follows_series_example :
  seriesRef (mountEffect true (mountEffect false (mkRefs false false)))
  = chartRef (mountEffect true (mountEffect false (mkRefs false false)))
  /\ (In FitContent
        (syncEffect JsDate.parseUtc
           (mountEffect true (mountEffect false (mkRefs false false)))
           (Sample.buffer 3)) <->
      seriesRef (mountEffect true (mountEffect false (mkRefs false false))) = true
      /\ (1 <= List.length (uniqueData JsDate.parseUtc (Sample.buffer 3)) <= 20)%nat).
Proof.
  apply (@fit_guard_follows_series JsDate.parseUtc).
  apply refs_effect, refs_effect, refs_initial.
Defined.

Lemma newest_tick_is_charted_example :
  In (CandlePoint.mk 1704067200 3%float 110%float 90%float 4%float)
    (uniqueData JsDate.parseUtc
       (Dashboard.appendTick (Sample.tick "2024-01-01T00:00:00.500Z" 3 4)
          [Sample.tick "2024-01-01T00:00:00Z" 1 2]))
  /\ forall q,
       In q (uniqueData JsDate.parseUtc
               (Dashboard.appendTick (Sample.tick "2024-01-01T00:00:00.500Z" 3 4)
                  [Sample.tick "2024-01-01T00:00:00Z" 1 2])) ->
       CandlePoint.time q = 1704067200%Z ->
       q = CandlePoint.mk 1704067200 3%float 110%float 90%float 4%float.
Proof.
  apply (@newest_tick_is_charted JsDate.parseUtc
           (Sample.tick "2024-01-01T00:00:00.500Z" 3 4)
           [Sample.tick "2024-01-01T00:00:00Z" 1 2] 1704067200500).
  vm_compute. reflexivity.
Defined.

End ChartExtra.

(** ** More on the dashboard *)

Module DashboardExtra.
Import Dashboard DashboardFacts.
Open Scope string_scope.

Local Arguments firstn : simpl never.
Local Arguments substring : simpl never.
Local Arguments String.append : simpl never.

Section Resumptions.
Variable Q : Action unit -> Prop.

Lemma run_resumptions (now : nat -> string) (a : Action unit) (n : nat)
    (st : State) :
  resumptions Q a ->
  match outcome (run now a n st) with
  | Suspended _ k => forall x, Q (k x) /\ resumptions Q (k x)
  | _ => True
  end.
Proof.
  revert n st. induction a as [x|error|k IH|g k IH|X e k IH]; simpl; intros n st Ha.
  - exact I.
  - exact I.
  - apply IH, Ha.
  - apply IH, Ha.
  - exact Ha.
Qed.

Lemma settle_tasks (r : Ran unit) (waiting : list Task) :
  match outcome r with
  | Suspended _ k => forall x, Q (k x) /\ resumptions Q (k x)
  | _ => True
  end ->
  Forall (taskResumes Q) waiting ->
  Forall (taskResumes Q) (pending (settle r waiting)).
Proof.
  intros Hout Hw. unfold settle.
  destruct (outcome r) as [x|error|X e k]; simpl; auto.
Qed.

Variable toFixed : float -> nat -> string.
Variable now : nat -> string.
Hypothesis handlers_resume : forall ev, resumptions Q (handler toFixed ev).

(** Every waiting handler of a reachable configuration is a continuation of
    one of the component's handlers. *)
Lemma reachable_tasks (c : Config) :
  reachable toFixed now c -> Forall (taskResumes Q) (pending c).
Proof.
  induction 1 as [|c c' Hreach IH Hstep].
  - constructor.
  - destruct Hstep as [c ev | c before after X e k reply Hpend].
    + apply settle_tasks; [|exact IH].
      apply run_resumptions, handlers_resume.
    + rewrite Hpend in IH. apply Forall_app in IH. destruct IH as [Hb Ha].
      inversion Ha as [|? ? Hk Ha']; subst.
      apply settle_tasks; [|apply Forall_app; split; assumption].
      apply run_resumptions. apply (Hk reply).
Qed.
End Resumptions.

(** A property kept by every run of a handler, from its start or from an
    await, holds in every reachable state. *)
Lemma reachable_keeps (P : State -> Prop) (toFixed : float -> nat -> string)
    (now : nat -> string) :
  P initialState ->
  (forall ev, runKeeps P (handler toFixed ev)) ->
  (forall ev, resumptions (runKeeps P) (handler toFixed ev)) ->
  forall c, reachable toFixed now c -> P (view c).
Proof.
  intros Hinit Hrun Hres c Hreach.
  induction Hreach as [|c c' Hreach IH Hstep]; [exact Hinit|].
  pose proof (@reachable_tasks (runKeeps P) toFixed now Hres c Hreach) as Htasks.
  destruct Hstep as [c ev | c before after X e k reply Hpend].
  - unfold settle.
    pose proof (Hrun ev now (reads c) (view c) IH) as Hst.
    destruct (outcome (run now (handler toFixed ev) (reads c) (view c))); exact Hst.
  - rewrite Hpend in Htasks. apply Forall_app in Htasks. destruct Htasks as [_ Ha].
    inversion Ha as [|? ? Hk _]; subst.
    pose proof (proj1 (Hk reply) now (reads c) (view c) IH) as Hst.
    unfold settle.
    destruct (outcome (run now (k reply) (reads c) (view c))); exact Hst.
Qed.

(** Steps through a handler's tree: state setters are computed, replies and
    responses are split into their cases. *)
Ltac walk :=
  repeat first
    [ progress cbn
    | match goal with
      | |- forall _, _ => intro
      | |- _ /\ _ => split
      | |- True => exact I
      | x : FetchOutcome |- _ => destruct x
      | x : JsonOutcome _ |- _ => destruct x
      | x : Response |- _ => destruct x as [[|]]
      end ].

Ltac unfold_handlers :=
  unfold handler, fetchInitialMarketData, fetchLastAgentDecision,
    handleForceUpdate, onConnect, onDisconnect, onStompError,
    onMarketMessage, onDecisionMessage, addLog, fetch, json, set.

(** *** The current tick and the buffer *)

Lemma newestBuffered_app (l : list MarketTick.t) (t : MarketTick.t) :
  newestBuffered (l ++ [t]) = Some t.
Proof. unfold newestBuffered. rewrite map_app. simpl. apply last_last. Qed.

(** In every reachable state the current tick shown in the header is the
    last tick of the chart buffer (and there is none when the buffer is
    empty): the snapshot and the market handler set both in one go. *)
Theorem current_tick_is_newest_buffered
    (toFixed : float -> nat -> string) (now : nat -> string) (c : Config) :
  reachable toFixed now c ->
  currentTick (view c) = newestBuffered (chartData (view c)).
Proof.
  revert c.
  apply (@reachable_keeps
           (fun st => currentTick st = newestBuffered (chartData st))).
  - reflexivity.
  - intros ev.
    destruct ev as [ | | | | | m | [tick|error] | [decision|error] ];
      unfold_handlers; unfold runKeeps; walk; try assumption.
    unfold appendTick. symmetry. apply newestBuffered_app.
  - intros ev.
    destruct ev as [ | | | | | m | [tick|error] | [decision|error] ];
      unfold_handlers; unfold runKeeps; walk; try assumption; reflexivity.
Qed.

Lemma current_tick_is_newest_buffered_example :
  currentTick
    (view (settle (run Sample.now
                     (handler Sample.toFixed
                        (Topic_market
                           (JsonValue (Sample.tick "2024-01-01T00:00:00Z" 1 2))))
                     (reads initialConfig) (view initialConfig))
             (pending initialConfig)))
  = newestBuffered
      (chartData
         (view (settle (run Sample.now
                          (handler Sample.toFixed
                             (Topic_market
                                (JsonValue (Sample.tick "2024-01-01T00:00:00Z" 1 2))))
                          (reads initialConfig) (view initialConfig))
                  (pending initialConfig)))).
Proof.
  apply (@current_tick_is_newest_buffered Sample.toFixed Sample.now).
  eapply reachable_step; [apply reachable_initial | apply step_event].
Defined.

(** *** The connection flag *)

(** Only the connect and disconnect callbacks change the connection flag:
    [onConnect] sets it, [onDisconnect] clears it, and no other handler, from
    its start or resumed with any reply (a failed or successful fetch, a
    body), changes it; a STOMP error frame in particular leaves it as it
    is. *)
Theorem connection_flag_only_by_connect_disconnect
    (toFixed : float -> nat -> string) (now : nat -> string) :
  (forall n st, isConnected (state (run now onConnect n st)) = true)
  /\ (forall n st, isConnected (state (run now onDisconnect n st)) = false)
  /\ (forall ev n st,
        ev <> Stomp_connect -> ev <> Stomp_disconnect ->
        isConnected (state (run now (handler toFixed ev) n st)) = isConnected st)
  /\ (forall c, reachable toFixed now c ->
        forall (before after : list Task) (X : Type) (e : Async X)
               (k : X -> Action unit) (reply : X),
          pending c = (before ++ mkTask e k :: after)%list ->
          isConnected (state (run now (k reply) (reads c) (view c)))
          = isConnected (view c)).
Proof.
  split; [reflexivity|]. split; [reflexivity|]. split.
  - intros ev n st Hc Hd.
    destruct ev as [ | | | | | m | [tick|error] | [decision|error] ];
      try congruence; reflexivity.
  - intros c Hreach before after X e k reply Hpend.
    assert (Htasks : Forall
              (taskResumes (fun a => forall now n st,
                              isConnected (state (run now a n st)) = isConnected st))
              (pending c)).
    { apply (@reachable_tasks _ toFixed now); [|exact Hreach].
      intros ev.
      destruct ev as [ | | | | | m | [tick|error] | [decision|error] ];
        unfold_handlers; walk; reflexivity. }
    rewrite Hpend in Htasks. apply Forall_app in Htasks. destruct Htasks as [_ Ha].
    inversion Ha as [|? ? Hk _]; subst.
    exact (proj1 (Hk reply) now (reads c) (view c)).
Qed.

(** *** The tick buffer *)

Lemma filter_other_twice (s u : string) (l : list MarketTick.t) :
  filter (fun d => negb (String.eqb (MarketTick.timestamp d) s))
    (filter (fun d => negb (String.eqb (MarketTick.timestamp d) u))
       (filter (fun d => negb (String.eqb (MarketTick.timestamp d) s)) l))
  = filter (fun d => negb (String.eqb (MarketTick.timestamp d) s))
      (filter (fun d => negb (String.eqb (MarketTick.timestamp d) u)) l).
Proof.
  induction l as [|d l IH]; [reflexivity|]. simpl.
  destruct (String.eqb (MarketTick.timestamp d) s) eqn:Hs; simpl.
  - destruct (String.eqb (MarketTick.timestamp d) u); simpl; [exact IH|].
    rewrite Hs. simpl. exact IH.
  - destruct (String.eqb (MarketTick.timestamp d) u); simpl; [exact IH|].
    rewrite Hs. simpl. rewrite IH. reflexivity.
Qed.

Lemma filter_other_idem (s : string) (l : list MarketTick.t) :
  filter (fun d => negb (String.eqb (MarketTick.timestamp d) s))
    (filter (fun d => negb (String.eqb (MarketTick.timestamp d) s)) l)
  = filter (fun d => negb (String.eqb (MarketTick.timestamp d) s)) l.
Proof.
  induction l as [|d l IH]; [reflexivity|]. simpl.
  destruct (String.eqb (MarketTick.timestamp d) s) eqn:Hs; simpl; [exact IH|].
  rewrite Hs. simpl. rewrite IH. reflexivity.
Qed.

(** A tick delivered again changes nothing, and a tick delivered again after
    another one leaves the buffer as if its first delivery had not happened:
    the earlier copy is dropped, the new one goes to the end. *)
Theorem redelivered_tick_replaces_its_copy
    (tick other : MarketTick.t) (prev : list MarketTick.t) :
  appendTick tick (appendTick tick prev) = appendTick tick prev
  /\ appendTick tick (appendTick other (appendTick tick prev))
     = appendTick tick (appendTick other prev).
Proof.
  unfold appendTick. split.
  - rewrite filter_app. simpl. rewrite String.eqb_refl. simpl.
    rewrite app_nil_r, filter_other_idem. reflexivity.
  - rewrite !filter_app, filter_other_twice. simpl.
    destruct (String.eqb (MarketTick.timestamp tick) (MarketTick.timestamp other));
      simpl; rewrite ?String.eqb_refl; simpl; rewrite ?app_nil_r; reflexivity.
Qed.

Lemma filter_other_length (s : string) (l : list MarketTick.t) :
  NoDup (timestamps l) ->
  List.length (filter (fun d => negb (String.eqb (MarketTick.timestamp d) s)) l)
  = if existsb (String.eqb s) (timestamps l)
    then pred (List.length l) else List.length l.
Proof.
  induction l as [|d l IH]; simpl; intros Hnd; [reflexivity|].
  inversion Hnd as [|? ? Hnotin Hnd']; subst.
  rewrite (String.eqb_sym s).
  destruct (String.eqb_spec (MarketTick.timestamp d) s) as [Heq|Hne]; simpl.
  - rewrite IH by exact Hnd'.
    destruct (existsb (String.eqb s) (timestamps l)) eqn:Hex; [|reflexivity].
    exfalso. apply existsb_exists in Hex. destruct Hex as [x [Hin Hx]].
    apply String.eqb_eq in Hx. subst x. apply Hnotin. rewrite Heq. exact Hin.
  - rewrite IH by exact Hnd'.
    destruct (existsb (String.eqb s) (timestamps l)) eqn:Hex; [|reflexivity].
    apply existsb_exists in Hex. destruct Hex as [x [Hin Hx]].
    destruct l as [|d' l']; [destruct Hin | reflexivity].
Qed.

(** The buffer is never trimmed: a market message with a timestamp not yet
    buffered makes it one tick longer, one with a buffered timestamp leaves
    its length as it is. *)
Theorem buffer_grows_by_new_timestamps
    (tick : MarketTick.t) (prev : list MarketTick.t) :
  NoDup (timestamps prev) ->
  List.length (appendTick tick prev)
  = if existsb (String.eqb (MarketTick.timestamp tick)) (timestamps prev)
    then List.length prev else S (List.length prev).
Proof.
  intros Hnd. unfold appendTick. rewrite length_app, filter_other_length by exact Hnd.
  simpl.
  destruct (existsb (String.eqb (MarketTick.timestamp tick)) (timestamps prev)) eqn:Hex.
  - destruct prev as [|d l]; [discriminate Hex | simpl; lia].
  - lia.
Qed.

Lemma buffer_grows_by_new_timestamps_example :
  List.length
    (appendTick (Sample.tick "2024-01-01T00:00:01Z" 3 4)
       [Sample.tick "2024-01-01T00:00:00Z" 1 2;
        Sample.tick "2024-01-01T00:00:01Z" 1 2]) = 2%nat.
Proof.
  apply (@buffer_grows_by_new_timestamps
           (Sample.tick "2024-01-01T00:00:01Z" 3 4)
           [Sample.tick "2024-01-01T00:00:00Z" 1 2;
            Sample.tick "2024-01-01T00:00:01Z" 1 2]).
  repeat constructor; simpl; intuition discriminate.
Defined.

(** *** The two snapshot fetches and the force update *)

(** A snapshot that succeeds replaces the buffer: when the body of
    [/api/market/current] arrives, the buffer becomes that one tick,
    whatever ticks the push channel had put there meanwhile, the current
    tick becomes it too, and one ["Market: ..."] entry is logged. *)
Theorem market_snapshot_replaces_buffer
    (toFixed : float -> nat -> string) (now : nat -> string) :
  exists (k1 : FetchOutcome -> Action unit)
         (k2 : JsonOutcome MarketTick.t -> Action unit),
    (forall n st,
        run now (fetchInitialMarketData toFixed) n st
        = mkRan (Suspended (HttpFetch "http://localhost:8081/api/market/current" "GET") k1)
            (S n)
            (setLogs (fun prev =>
               logEntry (now n) "Fetching initial market data..." :: firstn 99 prev) st))
    /\ (forall n st,
          run now (k1 (Resolved (mkResponse true))) n st
          = mkRan (Suspended (ResJson MarketTick.t) k2) n st)
    /\ (forall data n st,
          let r := run now (k2 (JsonValue data)) n st in
          outcome r = Finished tt
          /\ clockReads r = S n
          /\ currentTick (state r) = Some data
          /\ chartData (state r) = [data]
          /\ logs (state r)
             = logEntry (now n)
                 ("Market: " ++ MarketTick.symbol data ++ " @ "
                  ++ toFixed (MarketTick.close data) 2)
               :: firstn 99 (logs st)
          /\ isConnected (state r) = isConnected st
          /\ agentDecision (state r) = agentDecision st).
Proof.
  eexists. eexists. split; [reflexivity|]. split; [reflexivity|].
  intros data n st. cbv zeta. repeat split.
Qed.

(** A snapshot that fails, by a response that is not ok, a rejected request
    or a body that cannot be read, changes the log alone: one [ERROR:]
    entry with the error's text cut at 40 characters; current tick, buffer,
    decision and connection flag stay as they are, and nothing is fetched
    again. *)
Theorem market_snapshot_failure_only_logs
    (toFixed : float -> nat -> string) (now : nat -> string) :
  exists (k1 : FetchOutcome -> Action unit)
         (k2 : JsonOutcome MarketTick.t -> Action unit),
    (forall n st,
        outcome (run now (fetchInitialMarketData toFixed) n st)
        = Suspended (HttpFetch "http://localhost:8081/api/market/current" "GET") k1)
    /\ (forall n st,
          outcome (run now (k1 (Resolved (mkResponse true))) n st)
          = Suspended (ResJson MarketTick.t) k2)
    /\ (forall n st,
          let r := run now (k1 (Resolved (mkResponse false))) n st in
          outcome r = Finished tt
          /\ loggedOnce
               (logEntry (now n)
                  "ERROR: Market data fetch failed - Error: Failed to fetch market data")
               st (state r))
    /\ (forall error n st,
          let r := run now (k1 (Rejected error)) n st in
          outcome r = Finished tt
          /\ loggedOnce
               (logEntry (now n)
                  ("ERROR: Market data fetch failed - "
                   ++ substring 0 40 (String_ error)))
               st (state r))
    /\ (forall error n st,
          let r := run now (k2 (JsonError error)) n st in
          outcome r = Finished tt
          /\ loggedOnce
               (logEntry (now n)
                  ("ERROR: Market data fetch failed - "
                   ++ substring 0 40 (String_ error)))
               st (state r)).
Proof.
  eexists. eexists. split; [reflexivity|]. split; [reflexivity|].
  split; [|split]; intros; cbv zeta; repeat split.
Qed.

(** The decision snapshot never touches the market state: in each of its
    three stretches (up to the request, up to the reading of the body, after
    the body) current tick, buffer and connection flag stay as they are.  The
    first stretch changes the log alone, by one entry, the second changes
    nothing.  When the body arrives the decision is replaced by it as a
    whole; when the response is not ok, the request is rejected or the body
    cannot be read, the decision stays and one [ERROR:] entry is logged. *)
Theorem decision_snapshot_behaviour
    (toFixed : float -> nat -> string) (now : nat -> string) :
  exists (k1 : FetchOutcome -> Action unit)
         (k2 : JsonOutcome AgentDecision.t -> Action unit),
    (forall n st,
        run now (fetchLastAgentDecision toFixed) n st
        = mkRan
            (Suspended
               (HttpFetch "http://localhost:8081/api/market/last-decision" "GET") k1)
            (S n)
            (setLogs (fun prev =>
               logEntry (now n) "Fetching last agent decision..." :: firstn 99 prev) st))
    /\ (forall n st,
          run now (k1 (Resolved (mkResponse true))) n st
          = mkRan (Suspended (ResJson AgentDecision.t) k2) n st)
    /\ (forall data n st,
          let r := run now (k2 (JsonValue data)) n st in
          outcome r = Finished tt
          /\ agentDecision (state r) = Some data
          /\ currentTick (state r) = currentTick st
          /\ chartData (state r) = chartData st
          /\ isConnected (state r) = isConnected st
          /\ logs (state r)
             = logEntry (now n)
                 ("Agent: balance=$" ++ toFixed (AgentDecision.balance data) 2
                  ++ " equity=$" ++ toFixed (AgentDecision.equity data) 2
                  ++ " roi="
                  ++ match AgentDecision.roiPct data with
                     | Some r => toFixed r 2
                     | None => "0.00"
                     end ++ "%")
               :: firstn 99 (logs st))
    /\ (forall n st,
          let r := run now (k1 (Resolved (mkResponse false))) n st in
          outcome r = Finished tt
          /\ loggedOnce
               (logEntry (now n)
                  "ERROR: Agent decision fetch failed - Error: Failed to fetch decision")
               st (state r))
    /\ (forall error n st,
          let r := run now (k1 (Rejected error)) n st in
          outcome r = Finished tt
          /\ loggedOnce
               (logEntry (now n)
                  ("ERROR: Agent decision fetch failed - "
                   ++ substring 0 40 (String_ error)))
               st (state r))
    /\ (forall error n st,
          let r := run now (k2 (JsonError error)) n st in
          outcome r = Finished tt
          /\ loggedOnce
               (logEntry (now n)
                  ("ERROR: Agent decision fetch failed - "
                   ++ substring 0 40 (String_ error)))
               st (state r)).
Proof.
  eexists. eexists. split; [reflexivity|]. split; [reflexivity|].
  split; [|split; [|split]]; intros; cbv zeta; repeat split.
Qed.

(** A force update changes nothing but the log, whatever the reply: run to
    its end it has read the clock twice and put two entries in front of the
    log, the request notice and then the success notice or the [ERROR:]
    entry; tick, buffer, decision and connection flag are as before. *)
Theorem force_update_changes_only_the_log
    (now : nat -> string) (reply : FetchOutcome) (n : nat) (st : State) :
  let r := runWithFetch now handleForceUpdate reply n st in
  outcome r = Finished tt
  /\ clockReads r = S (S n)
  /\ isConnected (state r) = isConnected st
  /\ currentTick (state r) = currentTick st
  /\ agentDecision (state r) = agentDecision st
  /\ chartData (state r) = chartData st
  /\ exists msg,
       logs (state r)
       = logEntry (now (S n)) msg
         :: firstn 99 (logEntry (now n) "Requesting force update..."
                       :: firstn 99 (logs st))
       /\ (reply = Resolved (mkResponse true) ->
           msg = "Force update requested successfully")
       /\ (reply <> Resolved (mkResponse true) -> prefix "ERROR:" msg = true).
Proof.
  cbv zeta. destruct reply as [[[|]]|error]; repeat (split; [reflexivity|]).
  - exists "Force update requested successfully".
    split; [reflexivity|]. split; [reflexivity | congruence].
  - exists ("ERROR: Force update failed - "
            ++ substring 0 40 (String_ (mkError "Error" "Force update failed"))).
    split; [reflexivity|]. split; [discriminate | reflexivity].
  - exists ("ERROR: Force update failed - " ++ substring 0 40 (String_ error)).
    split; [reflexivity|]. split; [discriminate | reflexivity].
Qed.

(** *** The decision feed *)

Lemma runAll_app (now : nat -> string) (l1 l2 : list (Action unit)) (n : nat)
    (st : State) :
  runAll now (l1 ++ l2) n st
  = runAll now l2 (fst (runAll now l1 n st)) (snd (runAll now l1 n st)).
Proof.
  revert n st. induction l1 as [|a l1 IH]; intros n st; simpl; [reflexivity|].
  apply IH.
Qed.

Lemma decision_feed_frame (toFixed : float -> nat -> string) (now : nat -> string)
    (msgs : list (JsonOutcome AgentDecision.t)) (n : nat) (st : State) :
  let st' := snd (runAll now (List.map (onDecisionMessage toFixed) msgs) n st) in
  currentTick st' = currentTick st
  /\ chartData st' = chartData st
  /\ isConnected st' = isConnected st.
Proof.
  cbv zeta. revert n st. induction msgs as [|[d|error] msgs IH]; intros n st.
  - repeat split.
  - simpl. destruct (IH (S n)
      (setLogs (fun prev =>
         logEntry (now n)
           ("AGENT: " ++ AgentDecision.action d ++ " qty="
            ++ formatNumber toFixed (AgentDecision.quantity d) 4 "---"
            ++ " price=" ++ formatNumber toFixed (AgentDecision.price d) 2 "---"
            ++ " roi=" ++ formatNumber toFixed (AgentDecision.roiPct d) 2 "0.00"
            ++ "% reason=" ++ AgentDecision.reason d) :: firstn 99 prev)
         (setAgentDecision (Some d) st))) as (H1 & H2 & H3).
    repeat split; assumption.
  - simpl. apply IH.
Qed.

(** Over a run of messages on the decision topic, the decision shown is the
    last one that parsed, replaced as a whole; a message that does not parse
    changes nothing at all, not even the log; and the feed never touches
    current tick, buffer or connection flag. *)
Theorem decision_feed_last_parsed_wins
    (toFixed : float -> nat -> string) (now : nat -> string)
    (msgs : list (JsonOutcome AgentDecision.t)) (n : nat) (st : State) :
  (forall d,
      agentDecision
        (snd (runAll now
                (List.map (onDecisionMessage toFixed) (msgs ++ [JsonValue d])) n st))
      = Some d)
  /\ (forall error,
        runAll now
          (List.map (onDecisionMessage toFixed) (msgs ++ [JsonError error])) n st
        = runAll now (List.map (onDecisionMessage toFixed) msgs) n st)
  /\ (let st' := snd (runAll now (List.map (onDecisionMessage toFixed) msgs) n st) in
      currentTick st' = currentTick st
      /\ chartData st' = chartData st
      /\ isConnected st' = isConnected st).
Proof.
  split; [|split].
  - intros d. rewrite map_app, runAll_app. reflexivity.
  - intros error. rewrite map_app, runAll_app. simpl.
    destruct (runAll now (List.map (onDecisionMessage toFixed) msgs) n st).
    reflexivity.
  - apply decision_feed_frame.
Qed.

(** *** The background tint *)



End DashboardExtra.

(** ** The auto-fit threshold *)

Module AutoFitSpec.
Import Js Chart ChartFacts ChartExtra.



End AutoFitSpec.
